(** * SmartTextGen API: caching, bounded history and prompt templating

    A shallow embedding of [app.py], [ai_core.py] and [prompt_templates.py].

    Representation choices.
    - A Python [str] is a [string] holding its UTF-8 bytes.  Every operation
      the program applies to text (concatenation, [startswith], [replace] of
      ASCII patterns, [format] with ASCII braces, [strip]) acts the same on
      the UTF-8 bytes of well-formed text as on its code points.
    - A Python [int] is a [Z]; [str(int)] is the decimal printer.
    - The Redis server is a finite map from keys to entries with an optional
      expiry time; the wall clock is passed to each request.
    - The two [lru_cache] decorators are explicit bounded lists, most recently
      used entry first.
    - The text-generation pipeline is a parameter: a function of its own
      (abstract) state, so that two calls may answer differently. *)

From Stdlib Require Import ZArith Lia Ascii String List DecimalString.
From Stdlib Require Decimal DecimalZ.
From stdpp Require Import base decidable option list gmap strings.

Local Open Scope Z_scope.
Local Open Scope stdpp_scope.

(** ** Python strings *)

Module PyStr.

(** [sub in s] for strings: some suffix of [s] starts with [sub]. *)
Fixpoint contains (sub s : string) : bool :=
  String.prefix sub s ||
  match s with
  | EmptyString => false
  | String _ rest => contains sub rest
  end.

(** [s[n:]] for [0 <= n]. *)
Fixpoint drop (n : nat) (s : string) : string :=
  match n, s with
  | O, _ => s
  | S _, EmptyString => EmptyString
  | S k, String _ rest => drop k rest
  end.

(** [sep.join(l)]. *)
Definition join (sep : string) (l : list string) : string := String.concat sep l.

(** The loop of [str.replace] for a non-empty pattern: occurrences are found
    from the left and do not overlap; [skip] counts the characters of the
    current occurrence that are still to be passed over. *)
Fixpoint replace_go (old new : string) (skip : nat) (s : string) : string :=
  match s with
  | EmptyString => EmptyString
  | String c rest =>
      match skip with
      | S k => replace_go old new k rest
      | O =>
          if String.prefix old s
          then new +:+ replace_go old new (Nat.pred (String.length old)) rest
          else String c (replace_go old new O rest)
      end
  end.

(** With an empty pattern Python puts [new] around every character. *)
Fixpoint replace_empty (new s : string) : string :=
  match s with
  | EmptyString => new
  | String c rest => new +:+ String c (replace_empty new rest)
  end.

(** [s.replace(old, new)]. *)
Definition replace (old new s : string) : string :=
  match old with
  | EmptyString => replace_empty new s
  | _ => replace_go old new O s
  end.

(** Characters that end a plain field name of a replacement field: with one of
    them the field is an attribute, an index, a conversion, a format
    specification or nested, none of which this program writes. *)
Definition field_special (c : ascii) : bool :=
  existsb (Ascii.eqb c) ["{"; "!"; ":"; "."; "["; "]"]%char.

Fixpoint kw_lookup (name : string) (kw : list (string * string)) : option string :=
  match kw with
  | [] => None
  | (k, v) :: rest => if String.eqb k name then Some v else kw_lookup name rest
  end.

(** [template.format] with keyword arguments [kw], on the fragment of the
    format mini-language with literal text, doubled braces and plain named
    fields.  [None] is the exception Python raises ([KeyError] for an unbound
    name, [ValueError] for a lone brace); a field outside the fragment is
    reported as [None] too.  [field] is [Some acc] while the scanner is inside
    a replacement field, [acc] being the name read so far, reversed. *)
Fixpoint format_go (kw : list (string * string)) (field : option string)
    (s : string) : option string :=
  match s with
  | EmptyString =>
      match field with
      | None => Some EmptyString
      | Some _ => None
      end
  | String c rest =>
      match field with
      | None =>
          if Ascii.eqb c "{" then
            match rest with
            | String c' rest' =>
                if Ascii.eqb c' "{" then String "{"%char <$> format_go kw None rest'
                else format_go kw (Some EmptyString) rest
            | EmptyString => format_go kw (Some EmptyString) rest
            end
          else if Ascii.eqb c "}" then
            match rest with
            | String c' rest' =>
                if Ascii.eqb c' "}" then String "}"%char <$> format_go kw None rest'
                else None
            | EmptyString => None
            end
          else String c <$> format_go kw None rest
      | Some acc =>
          if Ascii.eqb c "}" then
            match acc with
            | EmptyString => None
            | _ =>
                v ← kw_lookup (String.rev acc) kw;
                String.append v <$> format_go kw None rest
            end
          else if field_special c then None
          else format_go kw (Some (String c acc)) rest
      end
  end.

Definition format (template : string) (kw : list (string * string)) : option string :=
  format_go kw None template.

(** UTF-8 encoding of a code point below U+10000. *)
Definition utf8 (cp : N) : string :=
  let b (n : N) := ascii_of_N n in
  if (cp <? 128)%N then String (b cp) EmptyString
  else if (cp <? 2048)%N then
    String (b (192 + cp / 64)%N) (String (b (128 + cp mod 64)%N) EmptyString)
  else
    String (b (224 + cp / 4096)%N)
      (String (b (128 + (cp / 64) mod 64)%N)
         (String (b (128 + cp mod 64)%N) EmptyString)).

(** The characters for which [str.isspace] holds. *)
Definition whitespace : list string :=
  utf8 <$> [9; 10; 11; 12; 13; 28; 29; 30; 31; 32; 133; 160; 5760;
            8192; 8193; 8194; 8195; 8196; 8197; 8198; 8199; 8200; 8201; 8202;
            8232; 8233; 8239; 8287; 12288]%N.

(** The first whitespace character [s] starts with, if any. *)
Definition leading_space (s : string) : option string :=
  List.find (fun w => String.prefix w s) whitespace.

(** [s.lstrip()]; [fuel] bounds the number of characters removed. *)
Fixpoint lstrip_go (fuel : nat) (s : string) : string :=
  match fuel with
  | O => s
  | S k =>
      match leading_space s with
      | Some w => lstrip_go k (drop (String.length w) s)
      | None => s
      end
  end.

Definition lstrip (s : string) : string := lstrip_go (String.length s) s.

(** [s.strip()]: a whitespace character at the end of [s] is the reverse of
    one at the start of the reversed bytes. *)
Definition rstrip_rev (r : string) : string :=
  (fix go (fuel : nat) (r : string) : string :=
     match fuel with
     | O => r
     | S k =>
         match List.find (fun w => String.prefix (String.rev w) r) whitespace with
         | Some w => go k (drop (String.length w) r)
         | None => r
         end
     end) (String.length r) r.

Definition strip (s : string) : string :=
  String.rev (rstrip_rev (String.rev (lstrip s))).

(** [s.partition(sep)], when [sep] occurs: the text before the first
    occurrence and the text after it. *)
Fixpoint partition (sep s : string) : option (string * string) :=
  if String.prefix sep s then Some (EmptyString, drop (String.length sep) s)
  else
    match s with
    | EmptyString => None
    | String c rest => (fun '(a, b) => (String c a, b)) <$> partition sep rest
    end.

(** A text that can stand between the braces of a plain replacement
    field. *)
Fixpoint plain_name (s : string) : bool :=
  match s with
  | EmptyString => true
  | String c rest => negb (Ascii.eqb c "}") && negb (field_special c) && plain_name rest
  end.

(** A text without braces is literal text for [format]. *)
Definition brace_free (s : string) : Prop :=
  contains "{" s = false ∧ contains "}" s = false.

(** [str(n)] for an [int]. *)
Definition str_of_int (n : Z) : string := NilZero.string_of_int (Z.to_int n).

(** [repr(s)].  The text is put between single quotes, or between double
    quotes when it holds a single quote and no double quote; the backslash and
    the chosen quote are escaped with a backslash, the line feed, the carriage
    return and the tabulation are written [\n], [\r] and [\t], and any other
    control character of ASCII as [\x] and two hexadecimal digits.  The bytes
    of the characters outside ASCII are left as they are, which is what
    [repr] does with the printable ones. *)
Definition single_quote : ascii := ascii_of_nat 39.
Definition double_quote : ascii := ascii_of_nat 34.
Definition backslash : ascii := ascii_of_nat 92.

Definition hex_digit (n : N) : ascii :=
  nth (N.to_nat n) (list_ascii_of_string "0123456789abcdef") "0"%char.

Definition repr_char (q c : ascii) : string :=
  let n := N_of_ascii c in
  if Ascii.eqb c backslash then String backslash (String backslash EmptyString)
  else if Ascii.eqb c q then String backslash (String q EmptyString)
  else if (n =? 10)%N then String backslash "n"
  else if (n =? 13)%N then String backslash "r"
  else if (n =? 9)%N then String backslash "t"
  else if (n <? 32)%N || (n =? 127)%N then
    String backslash
      (String "x" (String (hex_digit (n / 16)) (String (hex_digit (n mod 16)) EmptyString)))
  else String c EmptyString.

Fixpoint repr_body (q : ascii) (s : string) : string :=
  match s with
  | EmptyString => EmptyString
  | String c rest => repr_char q c +:+ repr_body q rest
  end.

Definition repr (s : string) : string :=
  let q :=
    if contains (String single_quote EmptyString) s &&
       negb (contains (String double_quote EmptyString) s)
    then double_quote else single_quote in
  String q (repr_body q s +:+ String q EmptyString).

(** [str(l)] for a list of strings. *)
Definition str_of_list (l : list string) : string :=
  "[" +:+ join ", " (repr <$> l) +:+ "]".

(** The characters of [s] that satisfy [f], in order. *)
Fixpoint keep (f : ascii → bool) (s : string) : string :=
  match s with
  | EmptyString => EmptyString
  | String c rest => if f c then String c (keep f rest) else keep f rest
  end.

End PyStr.

(** ** prompt_templates.py *)

(** [sanitize_input], the inner function of [get_prompt_template]. *)
Definition sanitize_input (user_input : string) : string :=
  PyStr.replace "```" EmptyString
    (PyStr.replace "}" EmptyString
       (PyStr.replace "{" EmptyString user_input)).

Definition templates : gmap string string :=
  list_to_map
    [ ("recommendation",
       "你是一個專業的推薦系統。參考歷史對話: {history_context}。根據以下用戶偏好：'{user_input}'，請提供一個詳細且具吸引力的產品推薦。");
      ("support",
       "你是一個專業的客服機器人。參考歷史對話: {history_context}。使用者提問：'{user_input}'，請提供一個清晰、專業且友善的回應。");
      ("ecommerce",
       "你是一位有創意的電商文案寫手。參考歷史對話: {history_context}。根據以下輸入：'{user_input}'，生成一段引人注目的產品描述或促銷文案。");
      ("general", "{history_context} {user_input}") ].

(** [get_prompt_template(mode)] is a function of the user input; [None] is an
    exception raised by [format]. *)
Definition get_prompt_template (mode : string) : string → option string :=
  let template := default (templates !!! "general") (templates !! mode) in
  fun user_input =>
    PyStr.format template
      [ ("history_context", "{history_context}");
        ("user_input", sanitize_input user_input) ].

(** ** ai_core.py *)

(** The [prompt] argument of [generate_response]: a string, or a sequence of
    strings given as a list or as a tuple. *)
Inductive prompt_arg :=
  | PStr (s : string)
  | PList (l : list string)
  | PTuple (l : list string).

(** What [generate_response] returns: a string, or a list of strings. *)
Inductive value :=
  | VStr (s : string)
  | VList (l : list string).

Global Instance prompt_arg_eq_dec : EqDecision prompt_arg.
Proof. solve_decision. Defined.
Global Instance value_eq_dec : EqDecision value.
Proof. solve_decision. Defined.

(** [isinstance(prompt, str)]. *)
Definition is_str (prompt : prompt_arg) : bool :=
  match prompt with PStr _ => true | _ => false end.

(** [len(prompt)] for a sequence of prompts. *)
Definition prompt_items (prompt : prompt_arg) : list string :=
  match prompt with PStr s => [s] | PList l | PTuple l => l end.

(** A list cannot be hashed; a string and a tuple of strings can. *)
Definition hashable (prompt : prompt_arg) : bool :=
  match prompt with PList _ => false | _ => true end.

(** [str(v)], as an f-string formats a value. *)
Definition py_str (v : value) : string :=
  match v with VStr s => s | VList l => PyStr.str_of_list l end.

Inductive exn :=
  | TypeError | IndexError | KeyError | ValueError | AttributeError
  | RedisError | ResponseError | JSONDecodeError | PipelineError.

Inductive result (A : Type) :=
  | Ok (a : A)
  | Raise (e : exn).
Arguments Ok {A} a.
Arguments Raise {A} e.

(** The arguments of a memoized call:
    [(prompt, history, max_length, mode)]. *)
Definition memo_key : Type := prompt_arg * list string * Z * string.

(** An [lru_cache] store, most recently used entry first. *)
Definition lru : Type := list (memo_key * value).

Fixpoint lru_find (k : memo_key) (c : lru) : option value :=
  match c with
  | [] => None
  | (k', v) :: rest => if decide (k' = k) then Some v else lru_find k rest
  end.

Fixpoint lru_remove (k : memo_key) (c : lru) : lru :=
  match c with
  | [] => []
  | (k', v) :: rest => if decide (k' = k) then rest else (k', v) :: lru_remove k rest
  end.

(** A hit moves the entry to the front. *)
Definition lru_touch (k : memo_key) (v : value) (c : lru) : lru :=
  (k, v) :: lru_remove k c.

(** A miss stores the result, dropping the least recently used entry when
    the store is full. *)
Definition lru_insert (maxsize : nat) (k : memo_key) (v : value) (c : lru) : lru :=
  (k, v) :: (if (maxsize <=? length c)%nat then removelast c else c).

(** ** The shared store *)

(** A decoded JSON document of the store: the program writes histories
    (lists of turns) under user identifiers and response dictionaries
    [{input, output, history}] under cache keys. *)
Inductive json_value :=
  | JHistory (turns : list string)
  | JResponse (input : string) (output : value) (history : list string).

Record entry := mkEntry { entry_value : json_value; entry_expires : option Z }.

Inductive redis_cmd :=
  | GET (key : string)
  | SET (key : string) (v : json_value)
  | SETEX (key : string) (ttl : Z) (v : json_value).

(** A key with an expiry time is gone once the clock has passed it: the
    store still answers with it at the very instant of its expiry. *)
Definition live (now : Z) (e : entry) : bool :=
  match entry_expires e with
  | None => true
  | Some t => now <=? t
  end.

(** What [GET key] answers at the time [now]. *)
Definition redis_lookup (now : Z) (db : gmap string entry) (key : string)
    : option json_value :=
  e ← db !! key; if live now e then Some (entry_value e) else None.

(** ** The deployment *)

(** What the module-level code of [ai_core.py] and [app.py] fixes at import
    time: the pipeline ([None] when loading the model failed), the API key and
    the cache time-to-live.  A pipeline call takes the prompts and
    [max_length]; it answers with one generated text per prompt or raises
    ([None]), and moves the pipeline to a new state. *)
Class Deployment := {
  BState : Type;
  generator : option (BState → list string → Z → option (list string) * BState);
  API_KEY : string;
  CACHE_TTL_SECONDS : Z
}.

Section App.
Context `{Deployment}.

(** The process state: the Redis client ([None] when the connection failed at
    start-up) with the commands sent so far, the two [lru_cache] stores, and
    the pipeline with the number of calls made to it. *)
Record state := mkState {
  redis_client : option (gmap string entry);
  redis_log : list redis_cmd;
  outer_lru : lru;
  inner_lru : lru;
  backend : BState;
  backend_calls : nat
}.

Definition set_redis (db : gmap string entry) (st : state) : state :=
  mkState (Some db) (redis_log st) (outer_lru st) (inner_lru st) (backend st)
    (backend_calls st).
Definition log_cmd (c : redis_cmd) (st : state) : state :=
  mkState (redis_client st) (redis_log st ++ [c]) (outer_lru st) (inner_lru st)
    (backend st) (backend_calls st).
Definition set_outer_lru (c : lru) (st : state) : state :=
  mkState (redis_client st) (redis_log st) c (inner_lru st) (backend st) (backend_calls st).
Definition set_inner_lru (c : lru) (st : state) : state :=
  mkState (redis_client st) (redis_log st) (outer_lru st) c (backend st) (backend_calls st).
(** The pipeline moves on and one more call is counted. *)
Definition set_backend (b : BState) (st : state) : state :=
  mkState (redis_client st) (redis_log st) (outer_lru st) (inner_lru st) b
    (S (backend_calls st)).

(** Computations that read and write the process state and may raise. *)
Definition M (A : Type) : Type := state → result A * state.

Definition ret {A} (a : A) : M A := fun st => (Ok a, st).
Definition raise {A} (e : exn) : M A := fun st => (Raise e, st).
Definition bind {A B} (m : M A) (k : A → M B) : M B :=
  fun st => match m st with
            | (Ok a, st') => k a st'
            | (Raise e, st') => (Raise e, st')
            end.
Definition gets {A} (f : state → A) : M A := fun st => (Ok (f st), st).
Definition modify (f : state → state) : M unit := fun st => (Ok tt, f st).

(** [try: m except <caught>: handler]; the effects of [m] up to the exception
    stay. *)
Definition try_except {A} (m : M A) (caught : exn → bool) (handler : M A) : M A :=
  fun st => match m st with
            | (Raise e, st') => if caught e then handler st' else (Raise e, st')
            | r => r
            end.

Definition of_option {A} (e : exn) (o : option A) : M A :=
  match o with Some a => ret a | None => raise e end.

Fixpoint mapM {A B} (f : A → M B) (l : list A) : M (list B) :=
  match l with
  | [] => ret []
  | a :: rest => bind (f a) (fun b => bind (mapM f rest) (fun bs => ret (b :: bs)))
  end.

End App.

Notation "'let*' x ':=' m 'in' k" := (bind m (fun x => k))
  (at level 10, x name, m at level 100, k at level 200).

Section Handlers.
Context `{Deployment}.

(** *** ai_core.py, continued *)

(** The prompt sent to the pipeline for one user input:
    [get_prompt_template(mode)(p).format(history_context=history_context)]. *)
Definition full_prompt (mode history_context p : string) : option string :=
  t ← get_prompt_template mode p;
  PyStr.format t [("history_context", history_context)].

(** The loop that cleans the generated texts: the prompt is cut off when the
    text starts with it.  [None] is the [IndexError] of [full_prompts[i]]. *)
Fixpoint clean_outputs (full_prompts generated : list string) : option (list string) :=
  match generated with
  | [] => Some []
  | generated_text :: more =>
      match full_prompts with
      | [] => None
      | fp :: fps =>
          let response :=
            if negb (String.prefix fp generated_text) then generated_text
            else PyStr.strip (PyStr.drop (String.length fp) generated_text) in
          cons response <$> clean_outputs fps more
      end
  end.

(** One call of the pipeline. *)
Definition call_generator
    (g : BState → list string → Z → option (list string) * BState)
    (full_prompts : list string) (max_length : Z) : M (list string) :=
  fun st =>
    let '(r, b) := g (backend st) full_prompts max_length in
    (match r with Some texts => Ok texts | None => Raise PipelineError end,
     set_backend b st).

(** The same message for a string, one message per prompt for a sequence:
    [msg if isinstance(prompt, str) else [msg] * len(prompt)]. *)
Definition per_prompt (msg : string) (prompt : prompt_arg) : value :=
  if is_str prompt then VStr msg
  else VList (replicate (length (prompt_items prompt)) msg).

Definition MODEL_UNAVAILABLE : string := "錯誤: AI 模型不可用。".
Definition GENERATION_FAILED : string := "抱歉，生成回應時發生錯誤。".

(** The body of [generate_response], under its decorator. *)
Definition generate_response_wrapped
    (prompt : prompt_arg) (history : list string) (max_length : Z) (mode : string)
    : M value :=
  match generator with
  | None => ret (per_prompt MODEL_UNAVAILABLE prompt)
  | Some g =>
      try_except
        (let prompts := prompt_items prompt in
         let history_context := PyStr.join " " history in
         let* full_prompts :=
           mapM (fun p => of_option KeyError (full_prompt mode history_context p)) prompts in
         let* generated := call_generator g full_prompts max_length in
         let* outputs := of_option IndexError (clean_outputs full_prompts generated) in
         if is_str prompt
         then let* first := of_option IndexError (head outputs) in ret (VStr first)
         else ret (VList outputs))
        (fun _ => true)
        (ret (per_prompt GENERATION_FAILED prompt))
  end.

(** [functools.lru_cache(maxsize)] around [f]: the arguments are hashed
    first, a stored result is returned without calling [f], and a new result
    is stored unless the call itself stored one. *)
Definition lru_cache (maxsize : nat)
    (get : state → lru) (set : lru → state → state)
    (f : prompt_arg → list string → Z → string → M value)
    (prompt : prompt_arg) (history : list string) (max_length : Z) (mode : string)
    : M value :=
  let key : memo_key := (prompt, history, max_length, mode) in
  if negb (hashable prompt) then raise TypeError
  else
    let* c := gets get in
    match lru_find key c with
    | Some v => let* _ := modify (set (lru_touch key v c)) in ret v
    | None =>
        let* v := f prompt history max_length mode in
        let* c' := gets get in
        match lru_find key c' with
        | Some _ => ret v
        | None => let* _ := modify (set (lru_insert maxsize key v c')) in ret v
        end
    end.

(** [@lru_cache(maxsize=128) def generate_response]. *)
Definition generate_response : prompt_arg → list string → Z → string → M value :=
  lru_cache 128 inner_lru set_inner_lru generate_response_wrapped.

(** *** app.py *)

Definition validate_api_key (api_key : option string) : bool :=
  bool_decide (api_key = Some API_KEY).

Definition VALID_MODES : list string :=
  ["general"; "recommendation"; "support"; "ecommerce"].

Record GenerateRequest := mkGenerateRequest {
  prompt : string;
  user_id : option string;
  max_length : Z;
  mode : string
}.

Record BatchGenerateRequest := mkBatchGenerateRequest {
  prompts : list string;
  batch_user_id : option string;
  batch_max_length : Z;
  batch_mode : string
}.

(** The JSON document of a response. *)
Inductive response_body :=
  | Generated (input : string) (output : value) (history : list string)
  | GeneratedBatch (inputs : list string) (outputs : list value) (history : list string)
  | Error (error : string).

(** A response: the document and the HTTP status. *)
Definition response : Type := response_body * nat.

(** [@lru_cache(maxsize=100) def generate_response_with_cache]. *)
Definition generate_response_with_cache : prompt_arg → list string → Z → string → M value :=
  lru_cache 100 outer_lru set_outer_lru generate_response.

Definition get_redis_key (prompt mode : string) (max_length : Z) : string :=
  "cache:" +:+ prompt +:+ ":" +:+ mode +:+ ":" +:+ PyStr.str_of_int max_length.

(** [redis_client.get(key)] on a connected client. *)
Definition redis_get (now : Z) (db : gmap string entry) (key : string)
    : M (option json_value) :=
  let* _ := modify (log_cmd (GET key)) in ret (redis_lookup now db key).

(** [redis_client.set(key, value)]: the key is stored without expiry. *)
Definition redis_set (db : gmap string entry) (key : string) (v : json_value) : M unit :=
  modify (fun st => log_cmd (SET key v) (set_redis (<[key := mkEntry v None]> db) st)).

(** [redis_client.setex(key, ttl, value)]: the server refuses a time-to-live
    that is not positive. *)
Definition redis_setex (now : Z) (db : gmap string entry) (key : string) (ttl : Z)
    (v : json_value) : M unit :=
  let* _ := modify (log_cmd (SETEX key ttl v)) in
  if ttl <=? 0 then raise ResponseError
  else modify (set_redis (<[key := mkEntry v (Some (now + ttl))]> db)).

Definition get_response_from_cache (now : Z) (prompt mode : string) (max_length : Z)
    : M (option json_value) :=
  let* client := gets redis_client in
  match client with
  | Some db =>
      let* cached_response := redis_get now db (get_redis_key prompt mode max_length) in
      match cached_response with
      | Some doc => ret (Some doc)
      | None => ret None
      end
  | None => ret None
  end.

Definition set_response_to_cache (now : Z) (prompt mode : string) (max_length : Z)
    (response : json_value) : M unit :=
  let* client := gets redis_client in
  match client with
  | Some db =>
      redis_setex now db (get_redis_key prompt mode max_length) CACHE_TTL_SECONDS response
  | None => ret tt
  end.

(** Truth value of a decoded document: an empty list is false. *)
Definition truthy (doc : option json_value) : bool :=
  match doc with
  | None | Some (JHistory []) => false
  | Some _ => true
  end.

(** [cached_response['output']]: a list cannot be indexed by a string. *)
Definition cached_output (doc : json_value) : M value :=
  match doc with
  | JResponse _ output _ => ret output
  | JHistory _ => raise TypeError
  end.

(** [cached_response.get('history', [])]: a list has no [get]. *)
Definition cached_history (doc : json_value) : M (list string) :=
  match doc with
  | JResponse _ _ history => ret history
  | JHistory _ => raise AttributeError
  end.

(** [l[-n:]] and [l[:n]]. *)
Definition last_n {A} (n : nat) (l : list A) : list A := drop (length l - n) l.
Definition first_n {A} (n : nat) (l : list A) : list A := take n l.

(** [json.loads(history_str)[-6:]]: a dictionary cannot be sliced. *)
Definition decoded_tail (doc : json_value) : M (list string) :=
  match doc with
  | JHistory turns => ret (last_n 6 turns)
  | JResponse _ _ _ => raise TypeError
  end.

(** Truth value of [user_id]: [None] and the empty string are false. *)
Definition user_given (user_id : option string) : bool :=
  match user_id with
  | Some (String _ _) => true
  | _ => false
  end.

(** The history block shared by both endpoints. *)
Definition load_history (now : Z) (user_id : option string) : M (list string) :=
  let* client := gets redis_client in
  match user_id, client with
  | Some uid, Some db =>
      if user_given user_id then
        try_except
          (let* history_str := redis_get now db uid in
           match history_str with
           | Some doc => decoded_tail doc
           | None => ret []
           end)
          (fun e => match e with
                    | RedisError | ResponseError | JSONDecodeError => true
                    | _ => false
                    end)
          (ret [])
      else ret []
  | _, _ => ret []
  end.

Definition INVALID_API_KEY : string := "無效的 API Key。".
Definition INVALID_MODE : string :=
  "mode 必須是 " +:+ PyStr.str_of_list VALID_MODES +:+ " 之一。".
Definition INTERNAL_ERROR : string := "發生內部伺服器錯誤。".
Definition BATCH_INTERNAL_ERROR : string := "批次生成時發生內部伺服器錯誤。".

Definition User (p : string) : string := "User: " +:+ p.
Definition AI (o : value) : string := "AI: " +:+ py_str o.

(** [POST /api/generate].  [api_key] is the [X-API-Key] header, [now] the
    time of the request. *)
Definition generate_text (body : GenerateRequest) (api_key : option string) (now : Z)
    : M response :=
  try_except
    (let prompt := prompt body in
     let user_id := user_id body in
     let max_length := max_length body in
     let mode := mode body in
     if negb (validate_api_key api_key) then ret (Error INVALID_API_KEY, 401%nat)
     else if negb (bool_decide (mode ∈ VALID_MODES)) then ret (Error INVALID_MODE, 400%nat)
     else
       let* cached_response := get_response_from_cache now prompt mode max_length in
       if truthy cached_response then
         match cached_response with
         | Some doc =>
             let* output := cached_output doc in
             let* history := cached_history doc in
             ret (Generated prompt output history, 200%nat)
         | None => raise TypeError
         end
       else
         let* history := load_history now user_id in
         let* output := generate_response_with_cache (PStr prompt) history max_length mode in
         let new_history := history ++ [User prompt; AI output] in
         let* client := gets redis_client in
         let* new_history :=
           match user_id, client with
           | Some uid, Some db =>
               if user_given user_id then
                 let* _ := redis_set db uid (JHistory (first_n 6 new_history)) in
                 ret new_history
               else ret []
           | _, _ => ret []
           end in
         let* _ := set_response_to_cache now prompt mode max_length
                     (JResponse prompt output new_history) in
         ret (Generated prompt output new_history, 200%nat))
    (fun _ => true)
    (ret (Error INTERNAL_ERROR, 500%nat)).

(** The loop over the prompts of a batch. *)
Fixpoint batch_outputs (now : Z) (batch_prompts : list string) (history : list string)
    (max_length : Z) (mode : string) : M (list value) :=
  match batch_prompts with
  | [] => ret []
  | prompt :: rest =>
      let* cached_response := get_response_from_cache now prompt mode max_length in
      let* output :=
        if truthy cached_response then
          match cached_response with
          | Some doc => cached_output doc
          | None => raise TypeError
          end
        else
          let* output := generate_response_with_cache (PStr prompt) history max_length mode in
          let* _ := set_response_to_cache now prompt mode max_length
                      (JResponse prompt output history) in
          ret output in
      let* outputs := batch_outputs now rest history max_length mode in
      ret (output :: outputs)
  end.

(** [POST /api/generate_batch]. *)
Definition generate_batch_text (body : BatchGenerateRequest) (api_key : option string)
    (now : Z) : M response :=
  try_except
    (let batch_prompts := prompts body in
     let user_id := batch_user_id body in
     let max_length := batch_max_length body in
     let mode := batch_mode body in
     if negb (validate_api_key api_key) then ret (Error INVALID_API_KEY, 401%nat)
     else if negb (bool_decide (mode ∈ VALID_MODES)) then ret (Error INVALID_MODE, 400%nat)
     else
       let* history := load_history now user_id in
       let* outputs := batch_outputs now batch_prompts history max_length mode in
       let new_history := history ++ (User <$> batch_prompts) ++ (AI <$> outputs) in
       let* client := gets redis_client in
       let* _ :=
         match user_id, client with
         | Some uid, Some db =>
             if user_given user_id then
               redis_set db uid (JHistory (first_n 6 new_history))
             else ret tt
         | _, _ => ret tt
         end in
       ret (GeneratedBatch batch_prompts outputs (first_n 6 new_history), 200%nat))
    (fun _ => true)
    (ret (Error BATCH_INTERNAL_ERROR, 500%nat)).

End Handlers.

(** ** Vocabulary of the properties *)

Section Vocabulary.
Context `{Deployment}.

(** No entry of the store of [st] expires between the times [now1] and
    [now2]: each is present at both times or gone at both. *)
Definition no_expiry_between (now1 now2 : Z) (st : state) : Prop :=
  match redis_client st with
  | Some db => map_Forall (fun _ e => live now2 e = live now1 e) db
  | None => True
  end.

#[global] Instance no_expiry_between_dec (now1 now2 : Z) (st : state) :
  Decision (no_expiry_between now1 now2 st).
Proof. unfold no_expiry_between. destruct (redis_client st); apply _. Defined.

(** The memoized results of the state [st'] are those of the state [st] and
    results of calls made with the history [history]. *)
Definition made_with (history : list string) (st st' : state) : Prop :=
  ∀ k : memo_key,
    is_Some (lru_find k (outer_lru st')) →
    is_Some (lru_find k (outer_lru st)) ∨ k.1.1.2 = history.

(** The turns of a history document, none when the key is absent. *)
Definition turns_of (doc : option json_value) : list string :=
  match doc with
  | Some (JHistory turns) => turns
  | _ => []
  end.

(** The [output] field of a response, when it has one. *)
Definition output_of (r : result response) : option value :=
  match r with
  | Ok (Generated _ output _, _) => Some output
  | _ => None
  end.

(** The characters [sanitize_input] is after. *)
Definition injection_char (c : ascii) : bool :=
  existsb (Ascii.eqb c) ["{"; "}"; "`"]%char.

(** Every run of [m] takes a state to one related to it by [P]. *)
Definition keeps {A} (P : state → state → Prop) (m : M A) : Prop :=
  ∀ st r st', m st = (r, st') → P st st'.

(** Every result that a run of [m] returns satisfies [Q]. *)
Definition yields {A} (Q : A → Prop) (m : M A) : Prop :=
  ∀ st a st', m st = (Ok a, st') → Q a.

(** Only the store and the list of commands sent to it differ between [st]
    and [st']. *)
Definition only_store_changed (st st' : state) : Prop :=
  outer_lru st' = outer_lru st ∧ inner_lru st' = inner_lru st ∧
  backend st' = backend st ∧ backend_calls st' = backend_calls st.

(** What [POST /api/generate] answers to [body]: the document of a
    generation with the prompt as input and status 200, or one of its three
    errors. *)
Definition single_response_shape (body : GenerateRequest) (r : result response) : Prop :=
  match r with
  | Ok (Generated input _ _, status) => input = prompt body ∧ status = 200%nat
  | Ok (Error e, status) =>
      (e, status) ∈ [(INVALID_API_KEY, 401%nat); (INVALID_MODE, 400%nat);
                     (INTERNAL_ERROR, 500%nat)]
  | _ => False
  end.

(** What [POST /api/generate_batch] answers to [body]: the prompts as
    inputs, one output for each, at most six turns of history and status 200,
    or one of its three errors. *)
Definition batch_response_shape (body : BatchGenerateRequest) (r : result response)
    : Prop :=
  match r with
  | Ok (GeneratedBatch inputs outputs history, status) =>
      inputs = prompts body ∧ length outputs = length inputs ∧
      (length history ≤ 6)%nat ∧ status = 200%nat
  | Ok (Error e, status) =>
      (e, status) ∈ [(INVALID_API_KEY, 401%nat); (INVALID_MODE, 400%nat);
                     (BATCH_INTERNAL_ERROR, 500%nat)]
  | _ => False
  end.

(** Between [st] and [st'] the pipeline was called at most [n] times. *)
Definition calls_within (n : nat) (st st' : state) : Prop :=
  (backend_calls st ≤ backend_calls st' ≤ backend_calls st + n)%nat.

(** A generation calls the pipeline once, where there is one. *)
Definition calls_per_generation : nat :=
  match generator with Some _ => 1%nat | None => 0%nat end.

(** The two memo stores are within the sizes given to [lru_cache]. *)
Definition lru_bounded (st : state) : Prop :=
  (length (outer_lru st) ≤ 100)%nat ∧ (length (inner_lru st) ≤ 128)%nat.

(** Memo stores within their sizes stay so. *)
Definition bounded_stays (st st' : state) : Prop :=
  lru_bounded st → lru_bounded st'.

(** A key of the shared cache, as [get_redis_key] makes them. *)
Definition cache_key (k : string) : bool := String.prefix "cache:" k.

(** The commands a request of the user [uid] may send: lookups of keys of
    the cache, response documents written to such keys with the configured
    time-to-live, and, when [uid] is given, reads of the key [uid] and
    histories of at most six turns written to it. *)
Definition allowed_cmd (uid : option string) (c : redis_cmd) : Prop :=
  match c with
  | GET k => cache_key k = true ∨ (user_given uid = true ∧ uid = Some k)
  | SET k v =>
      user_given uid = true ∧ uid = Some k ∧
      ∃ turns, v = JHistory turns ∧ (length turns ≤ 6)%nat
  | SETEX k ttl v =>
      cache_key k = true ∧ ttl = CACHE_TTL_SECONDS ∧ ∃ i o h, v = JResponse i o h
  end.

(** What the store of [st] holds under [k], expired or not. *)
Definition stored (st : state) (k : string) : option entry :=
  db ← redis_client st; db !! k.

(** From [st] to [st'] only commands allowed to [uid] were sent, and the
    store holds what it held under every key that is neither a key of the
    cache nor [uid]. *)
Definition touches_only (uid : option string) (st st' : state) : Prop :=
  (∃ cmds, redis_log st' = redis_log st ++ cmds ∧ Forall (allowed_cmd uid) cmds) ∧
  ∀ k, cache_key k = false → uid ≠ Some k → stored st' k = stored st k.

(** The store and the list of commands sent to it are the same in [st']
    as in [st]. *)
Definition same_store (st st' : state) : Prop :=
  redis_client st' = redis_client st ∧ redis_log st' = redis_log st.

(** Without a store nothing is sent and none appears. *)
Definition offline_stays (st st' : state) : Prop :=
  redis_client st = None → same_store st st'.

(** The request [body] without its [user_id]. *)
Definition anonymous (body : GenerateRequest) : GenerateRequest :=
  mkGenerateRequest (prompt body) None (max_length body) (mode body).

Definition anonymous_batch (body : BatchGenerateRequest) : BatchGenerateRequest :=
  mkBatchGenerateRequest (prompts body) None (batch_max_length body) (batch_mode body).

(** The result [v] is of the kind the prompt asks for: a string for a
    string, a list for a sequence of prompts. *)
Definition same_kind (prompt : prompt_arg) (v : value) : Prop :=
  match v with
  | VStr _ => is_str prompt = true
  | VList l => is_str prompt = false
  end.

End Vocabulary.

(** ** A small deployment to run the handlers on *)

(** A pipeline that echoes each prompt followed by the number of calls made
    before: two calls with the same prompt answer differently. *)
Definition echo_pipeline (n : nat) (full_prompts : list string) (max_length : Z)
    : option (list string) * nat :=
  (Some ((fun p => p +:+ " #" +:+ PyStr.str_of_int (Z.of_nat n)) <$> full_prompts), S n).

Definition echo_deployment : Deployment :=
  {| BState := nat; generator := Some echo_pipeline;
     API_KEY := "my-secure-api-key"; CACHE_TTL_SECONDS := 600 |}.

(** The same deployment with a pipeline that raises, and with none. *)
Definition failing_deployment : Deployment :=
  {| BState := nat; generator := Some (fun n _ _ => (None, S n));
     API_KEY := "my-secure-api-key"; CACHE_TTL_SECONDS := 600 |}.

Definition modelless_deployment : Deployment :=
  {| BState := nat; generator := None;
     API_KEY := "my-secure-api-key"; CACHE_TTL_SECONDS := 600 |}.

(** The state of a process that has served no request yet. *)
Definition fresh `{D : Deployment} (client : option (gmap string entry))
    (b : BState) : state :=
  mkState client [] [] [] b 0%nat.

Definition test_key : option string := Some "my-secure-api-key".

Definition six_turns : list string :=
  ["User: a"; "AI: b"; "User: c"; "AI: d"; "User: e"; "AI: f"].

(** * Properties *)

(** ** Strings *)

Lemma app_nil_l (s : string) : EmptyString +:+ s = s.
Proof. reflexivity. Qed.

Lemma app_cons (c : ascii) (s t : string) : String c s +:+ t = String c (s +:+ t).
Proof. reflexivity. Qed.

Lemma app_assoc (a b c : string) : (a +:+ b) +:+ c = a +:+ b +:+ c.
Proof. induction a as [|x a IH]; [done|]. rewrite !app_cons. by f_equal. Qed.

Lemma app_nil_r (s : string) : s +:+ EmptyString = s.
Proof. induction s as [|x s IH]; [done|]. rewrite app_cons. by f_equal. Qed.

Lemma prefix_nil (s : string) : String.prefix EmptyString s = true.
Proof. by destruct s. Qed.

Lemma prefix_cons (a b : ascii) (s t : string) :
  String.prefix (String a s) (String b t) = bool_decide (a = b) && String.prefix s t.
Proof. simpl. destruct (ascii_dec a b); case_bool_decide; done. Qed.

Lemma prefix_empty (a : ascii) (s : string) : String.prefix (String a s) EmptyString = false.
Proof. done. Qed.

#[local] Arguments String.prefix : simpl never.

(** A character occurs in a string. *)
Lemma contains_char_cons (c a : ascii) (s : string) :
  PyStr.contains (String c EmptyString) (String a s) = false ↔
  c ≠ a ∧ PyStr.contains (String c EmptyString) s = false.
Proof.
  cbn [PyStr.contains]. rewrite prefix_cons, prefix_nil.
  case_bool_decide; simpl; intuition congruence.
Qed.

Lemma contains_char_app (c : ascii) (s t : string) :
  PyStr.contains (String c EmptyString) (s +:+ t) = false ↔
  PyStr.contains (String c EmptyString) s = false ∧ PyStr.contains (String c EmptyString) t = false.
Proof.
  induction s as [|a s IH].
  - rewrite app_nil_l. intuition.
  - rewrite app_cons, !contains_char_cons. tauto.
Qed.

(** Removing occurrences of a pattern brings in no character. *)
Lemma replace_go_keeps_absent (c : ascii) (old : string) (s : string) (k : nat) :
  PyStr.contains (String c EmptyString) s = false →
  PyStr.contains (String c EmptyString) (PyStr.replace_go old EmptyString k s) = false.
Proof.
  revert k. induction s as [|a s IH]; intros k Hs; [done|].
  apply contains_char_cons in Hs as [Hca Hs].
  cbn [PyStr.replace_go]. destruct k as [|k]; [|by apply IH].
  destruct (String.prefix old (String a s)).
  - rewrite app_nil_l. by apply IH.
  - apply contains_char_cons. split; [done|]. by apply IH.
Qed.

(** [s.replace(c, '')] leaves no [c]. *)
Lemma replace_char_removes (c : ascii) (s : string) :
  PyStr.contains (String c EmptyString) (PyStr.replace (String c EmptyString) EmptyString s) = false.
Proof.
  unfold PyStr.replace. induction s as [|a s IH]; [done|].
  cbn [PyStr.replace_go]. rewrite prefix_cons, prefix_nil, andb_true_r.
  case_bool_decide as Hca.
  - by rewrite app_nil_l.
  - by apply contains_char_cons.
Qed.

(** Where the input does not start with two backticks, neither does the
    output of the backtick removal. *)
Lemma replace_backticks_head (s : string) :
  String.prefix "``" s = false →
  String.prefix "``" (PyStr.replace_go "```" EmptyString 0 s) = false.
Proof.
  destruct s as [|a [|b s]]; [done| |].
  - intros _. cbn [PyStr.replace_go].
    rewrite !prefix_cons, prefix_empty, !andb_false_r.
    by rewrite prefix_cons, prefix_empty, andb_false_r.
  - rewrite !prefix_cons, prefix_nil, andb_true_r. intros Hab.
    cbn [PyStr.replace_go]. rewrite !prefix_cons.
    destruct (bool_decide ("`"%char = a)) eqn:Ha; simpl.
    + destruct (bool_decide ("`"%char = b)) eqn:Hb; [done|]. simpl.
      by rewrite !prefix_cons, Ha, Hb.
    + by rewrite prefix_cons, Ha.
Qed.

(** [s.replace('```', '')] leaves no run of three backticks. *)
Lemma replace_backticks_removes (s : string) (k : nat) :
  PyStr.contains "```" (PyStr.replace_go "```" EmptyString k s) = false.
Proof.
  revert k. induction s as [|a s IH]; intros k; [done|].
  cbn [PyStr.replace_go]. destruct k as [|k]; [|by apply IH].
  destruct (String.prefix "```" (String a s)) eqn:Hp.
  - rewrite app_nil_l. apply IH.
  - cbn [PyStr.contains]. rewrite IH, orb_false_r.
    rewrite prefix_cons in Hp |- *.
    case_bool_decide; [|done]. simpl in *.
    by apply replace_backticks_head.
Qed.

(** ** Sanitization *)

Lemma sanitize_input_no_open (u : string) :
  PyStr.contains "{" (sanitize_input u) = false.
Proof.
  unfold sanitize_input. unfold PyStr.replace at 1 2.
  do 2 apply replace_go_keeps_absent. apply replace_char_removes.
Qed.

Lemma sanitize_input_no_close (u : string) :
  PyStr.contains "}" (sanitize_input u) = false.
Proof.
  unfold sanitize_input. unfold PyStr.replace at 1.
  apply replace_go_keeps_absent. apply replace_char_removes.
Qed.

Lemma sanitize_input_no_backticks (u : string) :
  PyStr.contains "```" (sanitize_input u) = false.
Proof. unfold sanitize_input. apply replace_backticks_removes. Qed.

Lemma sanitize_input_brace_free (u : string) : PyStr.brace_free (sanitize_input u).
Proof. split; [apply sanitize_input_no_open | apply sanitize_input_no_close]. Qed.

(** A pattern that does not occur is not replaced. *)
Lemma replace_go_absent (old new s : string) :
  PyStr.contains old s = false → PyStr.replace_go old new 0 s = s.
Proof.
  induction s as [|a s IH]; [done|]. cbn [PyStr.contains PyStr.replace_go].
  intros [Hp Hs]%orb_false_elim. rewrite Hp. f_equal. by apply IH.
Qed.

(** An input without braces and backtick runs passes unchanged. *)
Lemma sanitize_input_clean (u : string) :
  PyStr.brace_free u → PyStr.contains "```" u = false → sanitize_input u = u.
Proof.
  intros [Ho Hc] Hb. unfold sanitize_input, PyStr.replace.
  rewrite (replace_go_absent "{") by done.
  rewrite (replace_go_absent "}") by done.
  by apply replace_go_absent.
Qed.

(** ** The format scanner *)

Lemma fmap_append_cons (c : ascii) (a : string) (o : option string) :
  String c <$> (String.append a <$> o) = String.append (String c a) <$> o.
Proof. by destruct o. Qed.

(** Literal text is copied. *)
Lemma format_go_literal kw (a b : string) :
  PyStr.brace_free a →
  PyStr.format_go kw None (a +:+ b) = String.append a <$> PyStr.format_go kw None b.
Proof.
  intros [Ho Hc]. induction a as [|c a IH].
  - rewrite app_nil_l. by destruct (PyStr.format_go kw None b).
  - apply contains_char_cons in Ho as [Hco Ho], Hc as [Hcc Hc].
    rewrite app_cons. cbn [PyStr.format_go].
    assert (Ascii.eqb c "{" = false) as -> by (apply Ascii.eqb_neq; congruence).
    assert (Ascii.eqb c "}" = false) as -> by (apply Ascii.eqb_neq; congruence).
    rewrite IH by done. apply fmap_append_cons.
Qed.

Lemma format_go_literal_end kw (a : string) :
  PyStr.brace_free a → PyStr.format_go kw None a = Some a.
Proof.
  intros Ha. rewrite <- (app_nil_r a) at 1.
  rewrite format_go_literal by done. simpl. by rewrite app_nil_r.
Qed.

(** Inside a replacement field the name is read up to the closing brace. *)
Lemma format_go_field_name kw (name acc rest : string) :
  PyStr.plain_name name = true →
  PyStr.format_go kw (Some acc) (name +:+ String "}" rest) =
  PyStr.format_go kw (Some (String.rev_app name acc)) (String "}" rest).
Proof.
  revert acc. induction name as [|c name IH]; intros acc Hname; [done|].
  cbn [PyStr.plain_name] in Hname.
  apply andb_prop in Hname as [[Hc Hs]%andb_prop Hname].
  apply negb_true_iff in Hc, Hs.
  rewrite app_cons. cbn [PyStr.format_go String.rev_app]. rewrite Hc, Hs. by apply IH.
Qed.

Lemma rev_app_not_empty (name : string) (c : ascii) (acc : string) :
  String.rev_app name (String c acc) ≠ EmptyString.
Proof.
  revert c acc. induction name as [|d name IH]; intros c acc; [done|].
  cbn [String.rev_app]. apply IH.
Qed.

(** A replacement field with a plain, bound name is replaced by the value. *)
Lemma format_go_field kw (c : ascii) (name v rest : string) :
  Ascii.eqb c "{" = false → PyStr.plain_name (String c name) = true →
  PyStr.kw_lookup (String.rev (String.rev_app (String c name) EmptyString)) kw = Some v →
  PyStr.format_go kw None (String "{" (String c name +:+ String "}" rest)) =
  String.append v <$> PyStr.format_go kw None rest.
Proof.
  intros Hc Hname Hv. rewrite app_cons.
  change (PyStr.format_go kw None (String "{" (String c (name +:+ String "}" rest))))
    with (if Ascii.eqb c "{"
          then String "{"%char <$> PyStr.format_go kw None (name +:+ String "}" rest)
          else PyStr.format_go kw (Some EmptyString) (String c (name +:+ String "}" rest))).
  rewrite Hc, <- app_cons, format_go_field_name by done.
  cbn [PyStr.format_go]. rewrite Ascii.eqb_refl.
  destruct (String.rev_app (String c name) EmptyString) eqn:Hacc.
  - cbn [String.rev_app] in Hacc. by apply rev_app_not_empty in Hacc.
  - by rewrite Hv.
Qed.

(** The two replacement fields of the templates. *)
Lemma format_go_history_context kw (v rest : string) :
  PyStr.kw_lookup "history_context" kw = Some v →
  PyStr.format_go kw None ("{history_context}" +:+ rest) =
  String.append v <$> PyStr.format_go kw None rest.
Proof. intros Hv. by apply (format_go_field kw "h" "istory_context"). Qed.

Lemma format_go_user_input kw (v rest : string) :
  PyStr.kw_lookup "user_input" kw = Some v →
  PyStr.format_go kw None ("{user_input}" +:+ rest) =
  String.append v <$> PyStr.format_go kw None rest.
Proof. intros Hv. by apply (format_go_field kw "u" "ser_input"). Qed.

Lemma brace_free_app (a b : string) :
  PyStr.brace_free (a +:+ b) ↔ PyStr.brace_free a ∧ PyStr.brace_free b.
Proof. unfold PyStr.brace_free. rewrite !contains_char_app. tauto. Qed.

(** ** Rendering a prompt *)

(** A scaffold with literal text around its two fields renders to the
    literal text, the history context and the sanitized input. *)
Lemma render_scaffold (pre mid post u hc : string) :
  PyStr.brace_free pre → PyStr.brace_free mid → PyStr.brace_free post →
  (t ← PyStr.format (pre +:+ "{history_context}" +:+ mid +:+ "{user_input}" +:+ post)
         [("history_context", "{history_context}"); ("user_input", sanitize_input u)];
   PyStr.format t [("history_context", hc)]) =
  Some (pre +:+ hc +:+ mid +:+ sanitize_input u +:+ post).
Proof.
  intros Hpre Hmid Hpost. unfold PyStr.format.
  rewrite format_go_literal, (format_go_history_context _ "{history_context}") by done.
  rewrite format_go_literal, (format_go_user_input _ (sanitize_input u)) by done.
  rewrite format_go_literal_end by done. cbn [fmap option_fmap option_map mbind option_bind].
  rewrite format_go_literal, (format_go_history_context _ hc) by done.
  rewrite format_go_literal by done.
  rewrite format_go_literal_end
    by (apply brace_free_app; split; [apply sanitize_input_brace_free | done]).
  done.
Qed.

(** ** What sanitization leaves of an input *)

Lemma replace_go_length (old : string) (k : nat) (s : string) :
  (String.length (PyStr.replace_go old EmptyString k s) ≤ String.length s)%nat.
Proof.
  revert k. induction s as [|a s IH]; intros k; [done|].
  cbn [PyStr.replace_go]. destruct k as [|k].
  - destruct (String.prefix old (String a s)).
    + rewrite app_nil_l. cbn [String.length]. specialize (IH (Nat.pred (String.length old))). lia.
    + cbn [String.length]. specialize (IH 0%nat). lia.
  - cbn [String.length]. specialize (IH k). lia.
Qed.

Lemma keep_drop_length (f : ascii → bool) (k : nat) (s : string) :
  (String.length (PyStr.keep f (PyStr.drop k s)) ≤ String.length (PyStr.keep f s))%nat.
Proof.
  revert k. induction s as [|a s IH]; intros [|k]; cbn [PyStr.drop PyStr.keep]; try done.
  specialize (IH k). destruct (f a); cbn [String.length]; lia.
Qed.

(** Removing a single character that [f] rejects changes nothing [f] keeps. *)
Lemma keep_replace_char (f : ascii → bool) (c : ascii) (s : string) :
  f c = false →
  PyStr.keep f (PyStr.replace (String c EmptyString) EmptyString s) = PyStr.keep f s.
Proof.
  intros Hc. unfold PyStr.replace. induction s as [|a s IH]; [done|].
  cbn [PyStr.replace_go]. rewrite prefix_cons, prefix_nil, andb_true_r.
  case_bool_decide as Hca.
  - subst a. rewrite app_nil_l. cbn [PyStr.keep Nat.pred String.length]. by rewrite Hc.
  - cbn [PyStr.keep]. by rewrite IH.
Qed.

(** So does removing runs of three backticks, when [f] rejects the
    backtick. *)
Lemma keep_replace_backticks (f : ascii → bool) (s : string) (k : nat) :
  f "`"%char = false →
  PyStr.keep f s = PyStr.keep f (PyStr.drop k s) →
  PyStr.keep f (PyStr.replace_go "```" EmptyString k s) = PyStr.keep f s.
Proof.
  intros Hf. revert k. induction s as [|a s IH]; intros k Hk; [done|].
  cbn [PyStr.replace_go]. destruct k as [|k].
  - destruct (String.prefix "```" (String a s)) eqn:Hp.
    + rewrite app_nil_l. cbn [String.length Nat.pred].
      rewrite prefix_cons in Hp. apply andb_prop in Hp as [Ha Hp].
      apply bool_decide_eq_true in Ha as <-.
      destruct s as [|b [|c s]];
        [by rewrite prefix_empty in Hp
        |by rewrite prefix_cons, prefix_empty, andb_false_r in Hp|].
      rewrite !prefix_cons in Hp. apply andb_prop in Hp as [Hb Hp].
      apply andb_prop in Hp as [Hc _].
      apply bool_decide_eq_true in Hb as <-. apply bool_decide_eq_true in Hc as <-.
      rewrite IH; cbn [PyStr.keep PyStr.drop]; by rewrite ?Hf.
    + cbn [PyStr.keep]. by rewrite (IH 0%nat).
  - cbn [PyStr.drop] in Hk. cbn [PyStr.keep] in *.
    destruct (f a).
    + pose proof (keep_drop_length f k s) as Hlen. rewrite <- Hk in Hlen.
      cbn [String.length] in Hlen. lia.
    + by apply IH.
Qed.

(** Sanitizing only deletes. *)
Lemma sanitize_input_length (u : string) :
  (String.length (sanitize_input u) ≤ String.length u)%nat.
Proof.
  unfold sanitize_input, PyStr.replace.
  etrans; [apply replace_go_length|]. etrans; [apply replace_go_length|].
  apply replace_go_length.
Qed.

(** What it deletes are braces and backticks: the other characters stay, in
    their order. *)
Lemma sanitize_input_keeps_others (u : string) :
  PyStr.keep (fun c => negb (injection_char c)) (sanitize_input u) =
  PyStr.keep (fun c => negb (injection_char c)) u.
Proof.
  unfold sanitize_input. unfold PyStr.replace at 1.
  rewrite keep_replace_backticks, !keep_replace_char; done.
Qed.

(** The four scaffolds, and the fallback, have literal text around the two
    replacement fields. *)
Ltac split_scaffold :=
  lazymatch goal with
  | |- ∃ pre mid post : string, _ ∧ _ ∧ _ ∧ ?t = _ =>
      let r := eval vm_compute in (PyStr.partition "{history_context}" t) in
      lazymatch r with
      | Some (?pre, ?rest) =>
          let r' := eval vm_compute in (PyStr.partition "{user_input}" rest) in
          lazymatch r' with
          | Some (?mid, ?post) =>
              exists pre, mid, post; repeat split; vm_compute; reflexivity
          end
      end
  end.

Lemma templates_unknown (mode : string) :
  mode ∉ VALID_MODES → templates !! mode = None.
Proof.
  unfold VALID_MODES. rewrite !not_elem_of_cons. intros (?&?&?&?&_).
  unfold templates. cbn [list_to_map foldr uncurry fst snd].
  by rewrite !lookup_insert_ne, lookup_empty.
Qed.

Lemma templates_known (mode : string) :
  mode ∈ VALID_MODES → is_Some (templates !! mode).
Proof.
  unfold VALID_MODES. rewrite !elem_of_cons, elem_of_nil.
  intros [->|[->|[->|[->|[]]]]]; vm_compute; eauto.
Qed.

Lemma scaffold_shape (mode : string) :
  ∃ pre mid post : string,
    PyStr.brace_free pre ∧ PyStr.brace_free mid ∧ PyStr.brace_free post ∧
    default (templates !!! "general") (templates !! mode) =
    pre +:+ "{history_context}" +:+ mid +:+ "{user_input}" +:+ post.
Proof.
  destruct (decide (mode ∈ VALID_MODES)) as [Hin|Hout].
  - revert Hin. unfold VALID_MODES. rewrite !elem_of_cons, elem_of_nil.
    intros [->|[->|[->|[->|[]]]]]; split_scaffold.
  - rewrite templates_unknown by done. cbn [default]. split_scaffold.
Qed.

Lemma get_prompt_template_unknown (mode : string) :
  mode ∉ VALID_MODES → get_prompt_template mode = get_prompt_template "general".
Proof.
  intros Hout. unfold get_prompt_template. by rewrite templates_unknown.
Qed.

Lemma full_prompt_general (hc u : string) :
  full_prompt "general" hc u = Some (hc +:+ " " +:+ sanitize_input u).
Proof.
  unfold full_prompt, get_prompt_template.
  change (default (templates !!! "general") (templates !! "general"))
    with (EmptyString +:+ "{history_context}" +:+ " " +:+ "{user_input}" +:+ EmptyString).
  rewrite render_scaffold by (split; reflexivity).
  by rewrite app_nil_l, app_nil_r.
Qed.

(** C3: whatever the mode, the input reaches its slot of the rendered prompt
    only after every opening brace, every closing brace and every run of three
    backticks has been stripped from it.  The scaffold text around the slot
    does not depend on the input; the text in the slot holds none of the
    three; and it is the input with nothing but these characters taken out:
    it is no longer than the input, every character of the input other than
    a brace or a backtick is in it, in the order of the input, with nothing
    added, and an input that holds none of the three is in the slot as it
    is. *)
Theorem user_input_is_sanitized (mode : string) :
  ∃ pre mid post : string,
    PyStr.brace_free pre ∧ PyStr.brace_free mid ∧ PyStr.brace_free post ∧
    ∀ user_input history_context : string,
      get_prompt_template mode user_input =
        Some (pre +:+ "{history_context}" +:+ mid +:+ sanitize_input user_input +:+ post) ∧
      full_prompt mode history_context user_input =
        Some (pre +:+ history_context +:+ mid +:+ sanitize_input user_input +:+ post) ∧
      PyStr.contains "{" (sanitize_input user_input) = false ∧
      PyStr.contains "}" (sanitize_input user_input) = false ∧
      PyStr.contains "```" (sanitize_input user_input) = false ∧
      (String.length (sanitize_input user_input) ≤ String.length user_input)%nat ∧
      PyStr.keep (fun c => negb (injection_char c)) (sanitize_input user_input) =
        PyStr.keep (fun c => negb (injection_char c)) user_input ∧
      (sanitize_input user_input = user_input ↔
       PyStr.contains "{" user_input = false ∧
       PyStr.contains "}" user_input = false ∧
       PyStr.contains "```" user_input = false).
Proof.
  destruct (scaffold_shape mode) as (pre & mid & post & Hpre & Hmid & Hpost & Ht).
  exists pre, mid, post. split_and!; [done..|]. intros u hc.
  split_and!.
  - unfold get_prompt_template. rewrite Ht. unfold PyStr.format.
    rewrite format_go_literal, (format_go_history_context _ "{history_context}") by done.
    rewrite format_go_literal, (format_go_user_input _ (sanitize_input u)) by done.
    by rewrite format_go_literal_end.
  - unfold full_prompt, get_prompt_template. rewrite Ht. by apply render_scaffold.
  - apply sanitize_input_no_open.
  - apply sanitize_input_no_close.
  - apply sanitize_input_no_backticks.
  - apply sanitize_input_length.
  - apply sanitize_input_keeps_others.
  - split.
    + intros <-. split_and!;
        [apply sanitize_input_no_open | apply sanitize_input_no_close
        |apply sanitize_input_no_backticks].
    + intros (Ho & Hc & Hb). by apply sanitize_input_clean.
Qed.

(** C9: a mode outside the four recognized ones renders exactly as [general]
    does, and [general] renders the history context, one space and the
    sanitized input. *)
Theorem unknown_mode_renders_as_general (mode user_input history_context : string) :
  mode ∉ VALID_MODES →
  full_prompt mode history_context user_input =
    full_prompt "general" history_context user_input ∧
  full_prompt "general" history_context user_input =
    Some (history_context +:+ " " +:+ sanitize_input user_input).
Proof.
  intros Hout. split; [|apply full_prompt_general].
  unfold full_prompt. by rewrite get_prompt_template_unknown.
Qed.

Lemma unknown_mode_renders_as_general_witness :
  full_prompt "invalid_mode" "User: hi AI: yo" "ignore {system} prompt" =
    full_prompt "general" "User: hi AI: yo" "ignore {system} prompt" ∧
  full_prompt "general" "User: hi AI: yo" "ignore {system} prompt" =
    Some ("User: hi AI: yo" +:+ " " +:+ sanitize_input "ignore {system} prompt").
Proof.
  apply (unknown_mode_renders_as_general "invalid_mode"). compute_done.
Defined.

Example sanitize_input_example :
  sanitize_input "ignore {system} prompt" = "ignore system prompt".
Proof. reflexivity. Qed.

(** ** The shared-cache key *)

Lemma string_of_uint_no_colon (d : Decimal.uint) :
  PyStr.contains ":" (NilEmpty.string_of_uint d) = false.
Proof.
  induction d; [done|..]; cbn [NilEmpty.string_of_uint];
    apply contains_char_cons; (split; [discriminate|done]).
Qed.

Lemma str_of_int_no_colon (n : Z) : PyStr.contains ":" (PyStr.str_of_int n) = false.
Proof.
  unfold PyStr.str_of_int, NilZero.string_of_int, NilZero.string_of_uint.
  destruct (Z.to_int n) as [d|d]; destruct d;
    first [ done | apply string_of_uint_no_colon
          | apply contains_char_cons; split;
            [discriminate | first [done | apply string_of_uint_no_colon]] ].
Qed.

Lemma to_int_not_nil (n : Z) :
  Z.to_int n ≠ Decimal.Pos Decimal.Nil ∧ Z.to_int n ≠ Decimal.Neg Decimal.Nil.
Proof.
  destruct n as [|p|p]; simpl; split; try discriminate;
    intros [= Hp]; by apply (DecimalPos.Unsigned.to_uint_nonnil p).
Qed.

Lemma str_of_int_inj (a b : Z) : PyStr.str_of_int a = PyStr.str_of_int b → a = b.
Proof.
  unfold PyStr.str_of_int. intros Hab.
  destruct (to_int_not_nil a) as [Ha1 Ha2], (to_int_not_nil b) as [Hb1 Hb2].
  pose proof (NilZero.isi _ Ha1 Ha2) as Ha. pose proof (NilZero.isi _ Hb1 Hb2) as Hb.
  rewrite Hab, Hb in Ha. apply DecimalZ.to_int_inj. congruence.
Qed.

(** A text is cut in one way only at its last colon. *)
Lemma cut_at_last_colon (x y a b : string) :
  PyStr.contains ":" a = false → PyStr.contains ":" b = false →
  x +:+ ":" +:+ a = y +:+ ":" +:+ b → x = y ∧ a = b.
Proof.
  intros Ha Hb.
  change (":" +:+ a) with (String ":" a). change (":" +:+ b) with (String ":" b).
  revert y. induction x as [|c x IH]; intros [|c' y];
    rewrite ?app_nil_l, ?app_cons; intros [= ]; simplify_eq.
  - done.
  - rewrite contains_char_app, contains_char_cons in Ha. tauto.
  - rewrite contains_char_app, contains_char_cons in Hb. tauto.
  - destruct (IH y) as [-> ->]; done.
Qed.

Lemma valid_mode_no_colon (mode : string) :
  mode ∈ VALID_MODES → PyStr.contains ":" mode = false.
Proof.
  unfold VALID_MODES. rewrite !elem_of_cons, elem_of_nil.
  by intros [->|[->|[->|[->|[]]]]].
Qed.

Lemma get_redis_key_cut (p m : string) (L : Z) :
  get_redis_key p m L = (("cache:" +:+ p) +:+ ":" +:+ m) +:+ ":" +:+ PyStr.str_of_int L.
Proof. unfold get_redis_key. by rewrite !app_assoc. Qed.

(** The key determines the request it was derived from, when the modes are
    valid. *)
Lemma get_redis_key_inj (p m p' m' : string) (L L' : Z) :
  m ∈ VALID_MODES → m' ∈ VALID_MODES →
  get_redis_key p m L = get_redis_key p' m' L' → p = p' ∧ m = m' ∧ L = L'.
Proof.
  intros Hm Hm'. rewrite !get_redis_key_cut.
  intros [Hpm HL%str_of_int_inj]%cut_at_last_colon; [|apply str_of_int_no_colon..].
  apply cut_at_last_colon in Hpm as [Hp ->]; [|by apply valid_mode_no_colon..].
  by simplify_eq.
Qed.

(** ** The request handlers *)

Section HandlerFacts.
Context `{Deployment}.

Lemma valid_mode_check (m : string) :
  m ∈ VALID_MODES → negb (bool_decide (m ∈ VALID_MODES)) = false.
Proof. intros Hm. by rewrite bool_decide_eq_true_2. Qed.

Lemma invalid_mode_check (m : string) :
  m ∉ VALID_MODES → negb (bool_decide (m ∈ VALID_MODES)) = true.
Proof. intros Hm. by rewrite bool_decide_eq_false_2. Qed.

(** The message of a rejected mode names every valid mode. *)
Lemma INVALID_MODE_names (m : string) :
  m ∈ VALID_MODES → PyStr.contains m INVALID_MODE = true.
Proof.
  unfold VALID_MODES at 1. rewrite !elem_of_cons, elem_of_nil.
  by intros [->|[->|[->|[->|[]]]]]; vm_compute.
Qed.

Lemma get_response_from_cache_connected (now : Z) (p m : string) (L : Z)
    (st : state) (db : gmap string entry) :
  redis_client st = Some db →
  get_response_from_cache now p m L st =
    (Ok (redis_lookup now db (get_redis_key p m L)), log_cmd (GET (get_redis_key p m L)) st).
Proof.
  intros Hdb. unfold get_response_from_cache, bind, gets, redis_get, modify, ret.
  rewrite Hdb. by destruct (redis_lookup now db (get_redis_key p m L)).
Qed.

Lemma get_response_from_cache_disconnected (now : Z) (p m : string) (L : Z) (st : state) :
  redis_client st = None → get_response_from_cache now p m L st = (Ok None, st).
Proof.
  intros Hdb. unfold get_response_from_cache, bind, gets, ret. by rewrite Hdb.
Qed.

(** *** The memoized generation *)

Lemma mapM_of_option {A B} (e : exn) (f : A → option B) (l : list A) (st : state) :
  ∃ r, mapM (fun a => of_option e (f a)) l st = (r, st).
Proof.
  induction l as [|a l [r IH]]; [by eexists|].
  cbn [mapM]. unfold bind at 1. destruct (f a) as [b|]; [|by eexists].
  cbn [of_option ret]. unfold bind at 1. rewrite IH.
  destruct r; by eexists.
Qed.

(** The body of [generate_response] always returns; it touches nothing but
    the pipeline. *)
Lemma generate_response_wrapped_ok (p : prompt_arg) (h : list string) (L : Z)
    (m : string) (st : state) :
  ∃ v st',
    generate_response_wrapped p h L m st = (Ok v, st') ∧
    redis_client st' = redis_client st ∧ redis_log st' = redis_log st ∧
    outer_lru st' = outer_lru st ∧ inner_lru st' = inner_lru st.
Proof.
  unfold generate_response_wrapped. destruct generator as [g|]; [|by eexists _, _].
  unfold try_except, bind at 1.
  destruct (mapM_of_option KeyError (full_prompt m (PyStr.join " " h)) (prompt_items p) st)
    as [[fps|e] ->]; [|by eexists _, _].
  unfold bind at 1, call_generator.
  destruct (g (backend st) fps L) as [[texts|] b]; [|by eexists _, _].
  unfold bind at 1. destruct (clean_outputs fps texts) as [outs|]; [|by eexists _, _].
  cbn [of_option ret]. destruct (is_str p); [|by eexists _, _].
  unfold bind, of_option. destruct (head outs); by eexists _, _.
Qed.

Lemma lru_find_touch (k : memo_key) (v : value) (c : lru) :
  lru_find k (lru_touch k v c) = Some v.
Proof. unfold lru_touch. cbn [lru_find]. by rewrite decide_True. Qed.

Lemma lru_find_insert (n : nat) (k : memo_key) (v : value) (c : lru) :
  lru_find k (lru_insert n k v c) = Some v.
Proof. unfold lru_insert. cbn [lru_find]. by rewrite decide_True. Qed.

(** [generate_response] returns for a hashable prompt. *)
Lemma generate_response_ok (p : prompt_arg) (h : list string) (L : Z)
    (m : string) (st : state) :
  hashable p = true →
  ∃ v st',
    generate_response p h L m st = (Ok v, st') ∧
    redis_client st' = redis_client st ∧ redis_log st' = redis_log st ∧
    outer_lru st' = outer_lru st.
Proof.
  intros Hp. unfold generate_response, lru_cache. rewrite Hp. cbn [negb].
  unfold bind at 1, gets.
  destruct (lru_find (p, h, L, m) (inner_lru st)) as [v|]; [by eexists _, _|].
  destruct (generate_response_wrapped_ok p h L m st) as (v & st1 & Hw & ? & ? & ? & ?).
  unfold bind at 1. rewrite Hw. unfold bind at 1.
  destruct (lru_find (p, h, L, m) (inner_lru st1)); by eexists _, _.
Qed.

(** [generate_response_with_cache] returns for a hashable prompt, and its
    result is then the stored one for the arguments of the call. *)
Lemma generate_response_with_cache_ok (p : prompt_arg) (h : list string) (L : Z)
    (m : string) (st : state) :
  hashable p = true →
  ∃ v st',
    generate_response_with_cache p h L m st = (Ok v, st') ∧
    redis_client st' = redis_client st ∧ redis_log st' = redis_log st ∧
    lru_find (p, h, L, m) (outer_lru st') = Some v.
Proof.
  intros Hp. unfold generate_response_with_cache, lru_cache. rewrite Hp. cbn [negb].
  unfold bind at 1, gets.
  destruct (lru_find (p, h, L, m) (outer_lru st)) as [v|] eqn:Hfind.
  { eexists _, _. split_and!; [done..|]. apply lru_find_touch. }
  destruct (generate_response_ok p h L m st Hp) as (v & st1 & Hw & ? & ? & Hout).
  unfold bind at 1. rewrite Hw. unfold bind at 1. cbn [gets]. rewrite Hout, Hfind.
  eexists _, _. split_and!; [done..|]. apply lru_find_insert.
Qed.

(** A stored result is returned without calling the pipeline. *)
Lemma generate_response_with_cache_hit (p : prompt_arg) (h : list string) (L : Z)
    (m : string) (v : value) (st : state) :
  hashable p = true →
  lru_find (p, h, L, m) (outer_lru st) = Some v →
  generate_response_with_cache p h L m st =
    (Ok v, set_outer_lru (lru_touch (p, h, L, m) v (outer_lru st)) st).
Proof.
  intros Hp Hfind. unfold generate_response_with_cache, lru_cache. rewrite Hp. cbn [negb].
  unfold bind at 1, gets. by rewrite Hfind.
Qed.

(** *** The single-prompt endpoint, case by case *)

Lemma load_history_connected (now : Z) (uid : option string) (st : state)
    (db : gmap string entry) :
  redis_client st = Some db →
  load_history now uid st =
    if user_given uid then
      match redis_lookup now db (default EmptyString uid) with
      | Some (JResponse _ _ _) => (Raise TypeError, log_cmd (GET (default EmptyString uid)) st)
      | doc => (Ok (last_n 6 (turns_of doc)), log_cmd (GET (default EmptyString uid)) st)
      end
    else (Ok [], st).
Proof.
  intros Hdb. unfold load_history, bind at 1, gets. rewrite Hdb.
  destruct uid as [[|c u]|]; [done| |done]. cbn [user_given default].
  unfold try_except, redis_get, modify, ret, bind, id.
  by destruct (redis_lookup now db (String c u)) as [[?|? ? ?]|].
Qed.

Lemma load_history_disconnected (now : Z) (uid : option string) (st : state) :
  redis_client st = None → load_history now uid st = (Ok [], st).
Proof.
  intros Hdb. unfold load_history, bind at 1, gets. rewrite Hdb. by destruct uid.
Qed.

Lemma generate_text_unauthorized (body : GenerateRequest) (api_key : option string)
    (now : Z) (st : state) :
  validate_api_key api_key = false →
  generate_text body api_key now st = (Ok (Error INVALID_API_KEY, 401%nat), st).
Proof. intros Hkey. unfold generate_text, try_except. by rewrite Hkey. Qed.

Lemma generate_text_invalid_mode (body : GenerateRequest) (api_key : option string)
    (now : Z) (st : state) :
  validate_api_key api_key = true → mode body ∉ VALID_MODES →
  generate_text body api_key now st = (Ok (Error INVALID_MODE, 400%nat), st).
Proof.
  intros Hkey Hm. unfold generate_text, try_except. by rewrite Hkey, invalid_mode_check.
Qed.

Section Single.
Context (body : GenerateRequest) (api_key : option string) (now : Z).
Context (Hkey : validate_api_key api_key = true) (Hmode : mode body ∈ VALID_MODES).

#[local] Abbreviation key := (get_redis_key (prompt body) (mode body) (max_length body)).

(** A stored entry is served. *)
Lemma generate_text_hit (st : state) (db : gmap string entry)
    (input : string) (output : value) (history : list string) :
  redis_client st = Some db →
  redis_lookup now db key = Some (JResponse input output history) →
  generate_text body api_key now st =
    (Ok (Generated (prompt body) output history, 200%nat), log_cmd (GET key) st).
Proof.
  intros Hdb Hhit. unfold generate_text, try_except. rewrite Hkey, valid_mode_check by done.
  cbn [negb]. unfold bind at 1.
  rewrite (get_response_from_cache_connected _ _ _ _ _ db) by done.
  by rewrite Hhit.
Qed.

(** A history found under the cache key is not an entry: the request fails. *)
Lemma generate_text_not_an_entry (st : state) (db : gmap string entry)
    (turn : string) (turns : list string) :
  redis_client st = Some db →
  redis_lookup now db key = Some (JHistory (turn :: turns)) →
  generate_text body api_key now st =
    (Ok (Error INTERNAL_ERROR, 500%nat), log_cmd (GET key) st).
Proof.
  intros Hdb Hhit. unfold generate_text, try_except. rewrite Hkey, valid_mode_check by done.
  cbn [negb]. unfold bind at 1.
  rewrite (get_response_from_cache_connected _ _ _ _ _ db) by done.
  by rewrite Hhit.
Qed.

(** A miss on a connected store: the history is read, the output generated,
    the history written back and the entry stored. *)
Lemma generate_text_miss (st : state) (db : gmap string entry) :
  redis_client st = Some db →
  truthy (redis_lookup now db key) = false →
  let uid := default EmptyString (user_id body) in
  let given := user_given (user_id body) in
  match (if given then redis_lookup now db uid else None) with
  | Some (JResponse _ _ _) =>
      ∃ st', generate_text body api_key now st = (Ok (Error INTERNAL_ERROR, 500%nat), st') ∧
             redis_client st' = Some db
  | doc =>
      ∃ v st',
        let appended := last_n 6 (turns_of doc) ++ [User (prompt body); AI v] in
        let db1 :=
          if given then <[uid := mkEntry (JHistory (first_n 6 appended)) None]> db else db in
        let new_history := if given then appended else [] in
        let entry := JResponse (prompt body) v new_history in
        generate_text body api_key now st =
          (Ok (if CACHE_TTL_SECONDS <=? 0 then (Error INTERNAL_ERROR, 500%nat)
               else (Generated (prompt body) v new_history, 200%nat)), st') ∧
        redis_client st' =
          Some (if CACHE_TTL_SECONDS <=? 0 then db1
                else <[key := mkEntry entry (Some (now + CACHE_TTL_SECONDS))]> db1)
  end.
Proof.
  intros Hdb Hmiss. cbv zeta.
  destruct (user_given (user_id body)) eqn:Hgiven;
    [destruct (redis_lookup now db (default EmptyString (user_id body)))
       as [[turns|i o hh]|] eqn:Hdoc|].
  all: unfold generate_text, try_except; rewrite Hkey, valid_mode_check by done;
    cbn [negb]; unfold bind at 1;
    rewrite (get_response_from_cache_connected _ _ _ _ _ db) by done;
    rewrite Hmiss; unfold bind at 1;
    rewrite (load_history_connected _ _ _ db), Hgiven, ?Hdoc by done.
  2: by eexists.
  all: cbn beta iota; unfold bind at 1;
    match goal with
    | |- context [generate_response_with_cache ?p ?h ?L ?m ?st1] =>
        destruct (generate_response_with_cache_ok p h L m st1 eq_refl)
          as (v & st2 & Hgen & Hr & _ & _);
        exists v; rewrite Hgen
    end.
  all: cbn [redis_client log_cmd] in Hr; rewrite Hdb in Hr.
  all: destruct (user_id body) as [[|c u]|]; try discriminate Hgiven;
    cbn [user_given default id];
    unfold redis_set, set_response_to_cache, redis_setex;
    destruct (CACHE_TTL_SECONDS <=? 0);
    repeat (progress (unfold bind, ret, raise, gets, modify;
                      cbn [redis_client set_redis log_cmd]; rewrite ?Hr));
    (eexists; split; [reflexivity|]);
    cbn [redis_client log_cmd set_redis]; by rewrite ?Hr.
Qed.

(** Without a store the output comes from the memoized call, and is stored
    there for the next one. *)
Lemma generate_text_disconnected (st : state) :
  redis_client st = None →
  ∃ v st',
    generate_text body api_key now st = (Ok (Generated (prompt body) v [], 200%nat), st') ∧
    redis_client st' = None ∧
    lru_find (PStr (prompt body), [], max_length body, mode body) (outer_lru st') = Some v.
Proof.
  intros Hdb. unfold generate_text, try_except. rewrite Hkey, valid_mode_check by done.
  cbn [negb]. unfold bind at 1.
  rewrite get_response_from_cache_disconnected by done. cbn [truthy].
  unfold bind at 1. rewrite load_history_disconnected by done.
  destruct (generate_response_with_cache_ok (PStr (prompt body)) [] (max_length body)
              (mode body) st eq_refl) as (v & st1 & Hgen & Hr & _ & Hfind).
  unfold bind at 1. rewrite Hgen. rewrite Hdb in Hr.
  exists v, st1. split; [|done].
  unfold set_response_to_cache.
  repeat (progress (unfold bind, ret, gets; rewrite ?Hr)).
  destruct (user_id body); cbn beta iota; by rewrite Hr.
Qed.

Lemma generate_text_disconnected_memo (st : state) (v : value) :
  redis_client st = None →
  lru_find (PStr (prompt body), [], max_length body, mode body) (outer_lru st) = Some v →
  ∃ st', generate_text body api_key now st =
           (Ok (Generated (prompt body) v [], 200%nat), st').
Proof.
  intros Hdb Hfind. unfold generate_text, try_except. rewrite Hkey, valid_mode_check by done.
  cbn [negb]. unfold bind at 1.
  rewrite get_response_from_cache_disconnected by done. cbn [truthy].
  unfold bind at 1. rewrite load_history_disconnected by done.
  unfold bind at 1. rewrite (generate_response_with_cache_hit _ _ _ _ v) by done.
  unfold set_response_to_cache.
  repeat (progress (unfold bind, ret, gets; cbn [redis_client set_outer_lru]; rewrite ?Hdb)).
  destruct (user_id body); cbn [redis_client set_outer_lru]; rewrite Hdb; by eexists.
Qed.

(** With a time-to-live that the store refuses, no entry is ever written:
    only a stored entry makes a request succeed. *)
Lemma generate_text_refused_ttl (st : state) (db : gmap string entry) :
  CACHE_TTL_SECONDS <= 0 →
  redis_client st = Some db →
  (∀ i o h, redis_lookup now db key ≠ Some (JResponse i o h)) →
  ∃ st', generate_text body api_key now st = (Ok (Error INTERNAL_ERROR, 500%nat), st').
Proof.
  intros Httl%Z.leb_le Hdb Hno.
  destruct (redis_lookup now db key) as [[[|t ts]|i o h]|] eqn:Hdoc.
  2: { eexists. by eapply generate_text_not_an_entry. }
  2: { by destruct (Hno i o h). }
  all: pose proof (generate_text_miss st db Hdb) as Hmiss;
    rewrite Hdoc in Hmiss; specialize (Hmiss eq_refl); cbv zeta in Hmiss;
    rewrite Httl in Hmiss;
    destruct (if user_given (user_id body)
              then redis_lookup now db (default EmptyString (user_id body)) else None)
      as [[?|? ? ?]|];
    [destruct Hmiss as (v & st' & Hgt & _)
    |destruct Hmiss as (st' & Hgt & _)
    |destruct Hmiss as (v & st' & Hgt & _)]; by eexists.
Qed.

End Single.

(** C5: a request whose mode is not one of the four valid modes fails with a
    client-visible error, on both endpoints, and nothing happens before: no
    command is sent to the store, the pipeline is not called, and the state
    is the one before the request.  Past the API-key check, which comes
    first, the error has status 400 and its message names the four valid
    modes. *)
Theorem invalid_mode_is_rejected (body : GenerateRequest) (batch : BatchGenerateRequest)
    (api_key : option string) (now : Z) (st : state) :
  mode body ∉ VALID_MODES →
  batch_mode batch ∉ VALID_MODES →
  ∃ (e e' : string) (status status' : nat),
    generate_text body api_key now st = (Ok (Error e, status), st) ∧
    generate_batch_text batch api_key now st = (Ok (Error e', status'), st) ∧
    (validate_api_key api_key = true →
     e = INVALID_MODE ∧ e' = INVALID_MODE ∧ status = 400%nat ∧ status' = 400%nat) ∧
    ∀ m, m ∈ VALID_MODES → PyStr.contains m INVALID_MODE = true.
Proof.
  intros Hm Hb. unfold generate_text, generate_batch_text, try_except, ret.
  destruct (validate_api_key api_key); cbn [negb].
  - rewrite !invalid_mode_check by done.
    eexists _, _, _, _. split_and!; [done..|]. apply INVALID_MODE_names.
  - eexists _, _, _, _. split_and!; [done..|]. apply INVALID_MODE_names.
Qed.

(** C2: when the key of the request is in the shared cache, the pipeline is
    not called and no history is read or written: the store and the memoized
    results are unchanged, and the only command the store may receive is the
    lookup of that key.  The response of a request that passed the API-key
    and mode checks is made of the output and the history of the stored
    entry. *)
Theorem cache_hit_changes_nothing (body : GenerateRequest) (api_key : option string)
    (now : Z) (st : state) (db : gmap string entry)
    (input : string) (output : value) (history : list string) :
  let key := get_redis_key (prompt body) (mode body) (max_length body) in
  redis_client st = Some db →
  redis_lookup now db key = Some (JResponse input output history) →
  ∃ r st',
    generate_text body api_key now st = (r, st') ∧
    redis_client st' = Some db ∧
    backend_calls st' = backend_calls st ∧ backend st' = backend st ∧
    outer_lru st' = outer_lru st ∧ inner_lru st' = inner_lru st ∧
    (redis_log st' = redis_log st ∨ redis_log st' = redis_log st ++ [GET key]) ∧
    (validate_api_key api_key = true → mode body ∈ VALID_MODES →
     r = Ok (Generated (prompt body) output history, 200%nat) ∧
     redis_log st' = redis_log st ++ [GET key]).
Proof.
  intros key Hdb Hhit.
  destruct (validate_api_key api_key) eqn:Hkey.
  2: { rewrite generate_text_unauthorized by done.
       eexists _, _. split_and!; [done..|by left|done]. }
  destruct (decide (mode body ∈ VALID_MODES)) as [Hmode|Hmode].
  2: { rewrite generate_text_invalid_mode by done.
       eexists _, _. split_and!; [done..|by left|done]. }
  rewrite (generate_text_hit body api_key now Hkey Hmode st db input output history)
    by done.
  eexists _, _. split_and!; [done..|by right|done].
Qed.

Lemma no_expiry_lookup (now1 now2 : Z) (st : state) (db : gmap string entry) (k : string) :
  no_expiry_between now1 now2 st → redis_client st = Some db →
  redis_lookup now2 db k = redis_lookup now1 db k.
Proof.
  unfold no_expiry_between. intros Hno Hdb. rewrite Hdb in Hno.
  unfold redis_lookup. destruct (db !! k) as [e|] eqn:He; [|done].
  cbn [mbind option_bind]. by rewrite (Hno k e He).
Qed.

Lemma redis_lookup_insert (now : Z) (db : gmap string entry) (k : string) (e : entry) :
  live now e = true → redis_lookup now (<[k := e]> db) k = Some (entry_value e).
Proof. intros He. unfold redis_lookup. rewrite lookup_insert_eq. cbn. by rewrite He. Qed.

Lemma redis_lookup_insert_ne (now : Z) (db : gmap string entry) (k k' : string) (e : entry) :
  k ≠ k' → redis_lookup now (<[k := e]> db) k' = redis_lookup now db k'.
Proof. intros Hk. unfold redis_lookup. by rewrite lookup_insert_ne. Qed.

(** C8: a request repeated right after itself, while no entry of the store
    expires, is answered as the first time: with the same output (and the
    same history), be it served from the shared cache or from the memoized
    call. *)
Theorem repeated_request_same_output (body : GenerateRequest) (api_key : option string)
    (now1 now2 : Z) (st st1 : state) (r1 : result response) :
  generate_text body api_key now1 st = (r1, st1) →
  no_expiry_between now1 now2 st1 →
  ∃ st2, generate_text body api_key now2 st1 = (r1, st2) ∧
         output_of (fst (generate_text body api_key now2 st1)) = output_of r1.
Proof.
  intros Hfirst Hno.
  enough (∃ st2, generate_text body api_key now2 st1 = (r1, st2)) as [st2 H2]
    by (exists st2; by rewrite H2).
  destruct (validate_api_key api_key) eqn:Hkey.
  2: { rewrite generate_text_unauthorized in Hfirst by done. simplify_eq.
       eexists. by apply generate_text_unauthorized. }
  destruct (decide (mode body ∈ VALID_MODES)) as [Hmode|Hmode].
  2: { rewrite generate_text_invalid_mode in Hfirst by done. simplify_eq.
       eexists. by apply generate_text_invalid_mode. }
  set (key := get_redis_key (prompt body) (mode body) (max_length body)).
  destruct (redis_client st) as [db|] eqn:Hdb.
  2: { destruct (generate_text_disconnected body api_key now1 Hkey Hmode st Hdb)
         as (v & st' & Hgt & Hdb' & Hfind).
       rewrite Hgt in Hfirst. simplify_eq.
       by apply generate_text_disconnected_memo. }
  destruct (redis_lookup now1 db key) as [[[|t ts]|i o h]|] eqn:Hdoc.
  2: { rewrite (generate_text_not_an_entry body api_key now1 Hkey Hmode st db t ts)
         in Hfirst by done. simplify_eq.
       eexists. apply (generate_text_not_an_entry body api_key now2 Hkey Hmode _ db t ts);
         [done|]. fold key. by rewrite (no_expiry_lookup now1 now2 _ db key Hno). }
  2: { rewrite (generate_text_hit body api_key now1 Hkey Hmode st db i o h)
         in Hfirst by done. simplify_eq.
       eexists. apply (generate_text_hit body api_key now2 Hkey Hmode _ db i o h);
         [done|]. fold key. by rewrite (no_expiry_lookup now1 now2 _ db key Hno). }
  all: pose proof (generate_text_miss body api_key now1 Hkey Hmode st db Hdb) as Hmiss;
    fold key in Hmiss; rewrite Hdoc in Hmiss; specialize (Hmiss eq_refl);
    cbv zeta in Hmiss.
  all: destruct (if user_given (user_id body)
                 then redis_lookup now1 db (default EmptyString (user_id body)) else None)
         as [[turns|i o h]|] eqn:Huser.
  2,5: destruct Hmiss as (st' & Hgt & Hdb'); rewrite Hgt in Hfirst; simplify_eq;
    pose proof (generate_text_miss body api_key now2 Hkey Hmode _ db Hdb') as Hmiss2;
    fold key in Hmiss2; cbv zeta in Hmiss2;
    rewrite !(no_expiry_lookup now1 now2 _ db _ Hno Hdb'), Hdoc, Huser in Hmiss2;
    destruct (Hmiss2 eq_refl) as (st2 & Hgt2 & _); by exists st2.
  all: destruct Hmiss as (v & st' & Hgt & Hdb'); rewrite Hgt in Hfirst; simplify_eq.
  all: destruct (CACHE_TTL_SECONDS <=? 0) eqn:Httl;
    [apply Z.leb_le in Httl | apply Z.leb_gt in Httl].
  all: try (
    apply (generate_text_refused_ttl body api_key now2 Hkey Hmode _ _ Httl Hdb');
    intros i' o' h'; fold key; rewrite (no_expiry_lookup now1 now2 _ _ key Hno Hdb');
    destruct (user_given (user_id body));
      [destruct (decide (default EmptyString (user_id body) = key)) as [Heq|Hne];
         [rewrite Heq, redis_lookup_insert by done; discriminate
         |rewrite redis_lookup_insert_ne, Hdoc by done; discriminate]
      |rewrite Hdoc; discriminate]).
  all: eexists; apply (generate_text_hit body api_key now2 Hkey Hmode _ _
                         (prompt body) v _ Hdb');
    fold key; rewrite (no_expiry_lookup now1 now2 _ _ key Hno Hdb');
    rewrite redis_lookup_insert; [done|]; cbn; apply Z.leb_le; lia.
Qed.

End HandlerFacts.

Section MoreHandlerFacts.
Context `{Deployment}.

(** *** The history written back *)

Lemma first_n_length {A} (n : nat) (l : list A) : (length (first_n n l) ≤ n)%nat.
Proof. unfold first_n. rewrite length_take. lia. Qed.

Lemma last_n_length {A} (n : nat) (l : list A) : (length (last_n n l) ≤ n)%nat.
Proof. unfold last_n. rewrite length_drop. lia. Qed.

(** Once six turns are stored, the slice [[:6]] of the appended history is
    the stored history again: the new turns are the ones cut off. *)
Lemma first_n_full {A} (n : nat) (l new : list A) :
  length l = n → first_n n (l ++ new) = l.
Proof. intros <-. unfold first_n. by rewrite take_app_length. Qed.

(** The single-prompt endpoint stores [new_history[:6]] under the user
    identifier: at most six turns, taken from the front. *)
Lemma generate_text_stores_front (body : GenerateRequest) (api_key : option string)
    (now : Z) (st : state) (db : gmap string entry) (uid : string) :
  validate_api_key api_key = true → mode body ∈ VALID_MODES →
  redis_client st = Some db →
  let key := get_redis_key (prompt body) (mode body) (max_length body) in
  truthy (redis_lookup now db key) = false →
  user_id body = Some uid → user_given (Some uid) = true → uid ≠ key →
  0 < CACHE_TTL_SECONDS →
  (∀ i o h, redis_lookup now db uid ≠ Some (JResponse i o h)) →
  ∃ v st' db',
    let appended :=
      last_n 6 (turns_of (redis_lookup now db uid)) ++ [User (prompt body); AI v] in
    generate_text body api_key now st =
      (Ok (Generated (prompt body) v appended, 200%nat), st') ∧
    redis_client st' = Some db' ∧
    redis_lookup now db' uid = Some (JHistory (first_n 6 appended)) ∧
    (length (first_n 6 appended) ≤ 6)%nat.
Proof.
  intros Hkey Hmode Hdb key Hmiss Huid Hgiven Hne Httl Hdoc.
  pose proof (generate_text_miss body api_key now Hkey Hmode st db Hdb Hmiss) as Hgt.
  cbv zeta in Hgt. rewrite Huid, Hgiven in Hgt. cbn [default id] in Hgt.
  apply Z.leb_gt in Httl. rewrite Httl in Hgt.
  destruct (redis_lookup now db uid) as [[turns|i o h]|] eqn:Hu;
    [|by destruct (Hdoc i o h)|];
    destruct Hgt as (v & st' & Hgt & Hdb'); exists v, st'; eexists;
    (split_and!; [exact Hgt | exact Hdb' | | apply first_n_length]);
    by rewrite redis_lookup_insert_ne, redis_lookup_insert.
Qed.

(** With six turns stored, the request leaves the stored history as it is:
    its own two turns are not recorded. *)
Lemma generate_text_keeps_full_history (body : GenerateRequest)
    (api_key : option string) (now : Z) (st : state) (db : gmap string entry)
    (uid : string) (turns : list string) :
  validate_api_key api_key = true → mode body ∈ VALID_MODES →
  redis_client st = Some db →
  let key := get_redis_key (prompt body) (mode body) (max_length body) in
  truthy (redis_lookup now db key) = false →
  user_id body = Some uid → user_given (Some uid) = true → uid ≠ key →
  0 < CACHE_TTL_SECONDS →
  redis_lookup now db uid = Some (JHistory turns) → length turns = 6%nat →
  ∃ v st' db',
    generate_text body api_key now st =
      (Ok (Generated (prompt body) v (turns ++ [User (prompt body); AI v]), 200%nat), st') ∧
    redis_client st' = Some db' ∧
    redis_lookup now db' uid = Some (JHistory turns).
Proof.
  intros Hkey Hmode Hdb key Hmiss Huid Hgiven Hne Httl Hturns Hsix.
  destruct (generate_text_stores_front body api_key now st db uid)
    as (v & st' & db' & Hgt & Hdb' & Hstored & _); try done.
  { intros i o h. by rewrite Hturns. }
  cbv zeta in Hgt, Hstored. rewrite Hturns in Hgt, Hstored. cbn [turns_of] in Hgt, Hstored.
  assert (last_n 6 turns = turns) as Hlast
    by (unfold last_n; by rewrite Hsix, Nat.sub_diag).
  rewrite Hlast in Hgt, Hstored. rewrite first_n_full in Hstored by done.
  by exists v, st', db'.
Qed.

(** The batch endpoint: whatever the loop over the prompts does, the history
    of the response is the history read before the loop, then the user turns,
    then the answers, cut to its first six turns. *)
Lemma generate_batch_text_history (batch : BatchGenerateRequest)
    (api_key : option string) (now : Z) (st st' : state) (db : gmap string entry)
    (inputs : list string) (outputs : list value) (history : list string) :
  redis_client st = Some db →
  generate_batch_text batch api_key now st =
    (Ok (GeneratedBatch inputs outputs history, 200%nat), st') →
  let snapshot :=
    if user_given (batch_user_id batch)
    then last_n 6 (turns_of (redis_lookup now db (default EmptyString (batch_user_id batch))))
    else [] in
  inputs = prompts batch ∧
  history = first_n 6 (snapshot ++ (User <$> inputs) ++ (AI <$> outputs)).
Proof.
  intros Hdb. unfold generate_batch_text, try_except.
  destruct (validate_api_key api_key); [|discriminate].
  destruct (bool_decide (batch_mode batch ∈ VALID_MODES)); [|discriminate].
  cbn [negb]. unfold bind at 1. rewrite (load_history_connected _ _ _ db) by done.
  destruct (user_given (batch_user_id batch));
    [destruct (redis_lookup now db (default EmptyString (batch_user_id batch)))
       as [[turns|i o h]|]|]; [|discriminate|..].
  all: cbn beta iota; unfold bind at 1;
    match goal with
    | |- context [batch_outputs ?n ?ps ?h ?L ?m ?s] =>
        destruct (batch_outputs n ps h L m s) as [[outs|e] st1]
    end; [|discriminate];
    unfold bind at 1, gets; unfold bind at 1;
    destruct (batch_user_id batch) as [uid|]; [destruct (redis_client st1)|];
    try destruct (user_given (Some uid));
    unfold redis_set, modify, ret; intros [= <- <- <- _]; done.
Qed.

(** *** One snapshot for the whole batch *)

Lemma lru_find_remove (k k' : memo_key) (c : lru) :
  is_Some (lru_find k (lru_remove k' c)) → is_Some (lru_find k c).
Proof.
  induction c as [|[k0 v0] c IH]; [done|]. cbn [lru_remove lru_find].
  destruct (decide (k0 = k')) as [->|]; cbn [lru_find]; case_decide; eauto.
Qed.

Lemma lru_find_removelast (k : memo_key) (c : lru) :
  is_Some (lru_find k (removelast c)) → is_Some (lru_find k c).
Proof.
  induction c as [|[k0 v0] [|e c] IH]; [done|by intros []|].
  change (removelast ((k0, v0) :: e :: c)) with ((k0, v0) :: removelast (e :: c)).
  cbn [lru_find] in *. case_decide; eauto.
Qed.

(** A relation between the state before and the state after that every step
    keeps, is kept by their sequence. *)
Lemma bind_keeps {A B} (P : state → state → Prop) (m : M A) (k : A → M B)
    (st st' : state) (r : result B) :
  Transitive P →
  (∀ st0 r0 st1, m st0 = (r0, st1) → P st0 st1) →
  (∀ a st0 r0 st1, k a st0 = (r0, st1) → P st0 st1) →
  bind m k st = (r, st') → P st st'.
Proof.
  intros Htrans Hm Hk. unfold bind.
  destruct (m st) as [[a|e] st1] eqn:Hrun.
  - intros Hrest. etrans; [by eapply Hm | by eapply Hk].
  - intros [= <- <-]. by eapply Hm.
Qed.

Section Snapshot.
Context (history : list string).

#[local] Abbreviation made_with_snapshot := (made_with history).

Lemma made_with_refl (st : state) : made_with_snapshot st st.
Proof. intros k Hk. by left. Qed.

Lemma made_with_trans : Transitive made_with_snapshot.
Proof.
  intros st1 st2 st3 H12 H23 k Hk.
  destruct (H23 k Hk) as [Hk2|]; [|by right]. by apply H12.
Qed.

Lemma same_outer_lru (st st' : state) :
  outer_lru st' = outer_lru st → made_with_snapshot st st'.
Proof. intros Heq k Hk. left. by rewrite <- Heq. Qed.

Lemma generate_response_with_cache_snapshot (p : prompt_arg) (L : Z) (m : string)
    (st : state) (r : result value) (st' : state) :
  generate_response_with_cache p history L m st = (r, st') →
  made_with_snapshot st st'.
Proof.
  unfold generate_response_with_cache, lru_cache.
  destruct (hashable p) eqn:Hp; cbn [negb]; [|intros [= <- <-]; apply made_with_refl].
  unfold bind at 1, gets.
  destruct (lru_find (p, history, L, m) (outer_lru st)) as [v|] eqn:Hfind.
  - intros [= <- <-] k. cbn [outer_lru set_outer_lru lru_touch lru_find].
    case_decide as Hk; [subst k; by right|]. intros ?%lru_find_remove. by left.
  - destruct (generate_response_ok p history L m st Hp) as (v & st1 & Hw & _ & _ & Hout).
    unfold bind at 1. rewrite Hw. unfold bind at 1. cbn [gets]. rewrite Hout, Hfind.
    intros [= <- <-] k. cbn [outer_lru set_outer_lru lru_insert lru_find].
    case_decide as Hk; [subst k; by right|].
    destruct (100 <=? length (outer_lru st))%nat; [intros ?%lru_find_removelast|]; by left.
Qed.

Lemma get_response_from_cache_snapshot (now : Z) (p m : string) (L : Z)
    (st : state) (r : result (option json_value)) (st' : state) :
  get_response_from_cache now p m L st = (r, st') → made_with_snapshot st st'.
Proof.
  unfold get_response_from_cache, redis_get, bind, gets, modify, ret.
  destruct (redis_client st) as [db|]; [destruct (redis_lookup now db _)|];
    intros [= <- <-]; by apply same_outer_lru.
Qed.

Lemma set_response_to_cache_snapshot (now : Z) (p m : string) (L : Z)
    (doc : json_value) (st : state) (r : result unit) (st' : state) :
  set_response_to_cache now p m L doc st = (r, st') → made_with_snapshot st st'.
Proof.
  unfold set_response_to_cache, redis_setex, bind, gets, modify, ret, raise.
  destruct (redis_client st) as [db|]; [destruct (CACHE_TTL_SECONDS <=? 0)|];
    intros [= <- <-]; by apply same_outer_lru.
Qed.

(** In the loop of a batch every generation is called with the history read
    before the loop: no prompt is generated against the output of another. *)
Lemma batch_outputs_snapshot (now : Z) (ps : list string) (L : Z) (m : string)
    (st : state) (r : result (list value)) (st' : state) :
  batch_outputs now ps history L m st = (r, st') → made_with_snapshot st st'.
Proof.
  revert st r st'. induction ps as [|p ps IH]; intros st r st'.
  { intros [= <- <-]. apply made_with_refl. }
  cbn [batch_outputs]. apply bind_keeps; [apply made_with_trans|apply get_response_from_cache_snapshot|].
  intros cached st0 r0 st1. apply bind_keeps; [apply made_with_trans| |].
  - intros st2 r2 st3. destruct (truthy cached).
    + destruct cached as [[?|? ? ?]|]; intros [= <- <-]; apply made_with_refl.
    + apply bind_keeps; [apply made_with_trans|apply generate_response_with_cache_snapshot|].
      intros v st4 r4 st5. apply bind_keeps; [apply made_with_trans|apply set_response_to_cache_snapshot|].
      intros _ st6 r6 st7 [= <- <-]. apply made_with_refl.
  - intros v st2 r2 st3. apply bind_keeps; [apply made_with_trans|apply IH|].
    intros vs st4 r4 st5 [= <- <-]. apply made_with_refl.
Qed.

End Snapshot.

(** *** Generation without a usable pipeline *)

Lemma generate_response_wrapped_unavailable (p : prompt_arg) (h : list string)
    (L : Z) (m : string) (st : state) :
  generator = None →
  generate_response_wrapped p h L m st = (Ok (per_prompt MODEL_UNAVAILABLE p), st).
Proof. intros Hg. unfold generate_response_wrapped. by rewrite Hg. Qed.

Lemma generate_response_wrapped_failed (p : prompt_arg) (h : list string)
    (L : Z) (m : string) (st : state) g :
  generator = Some g →
  (∀ fps, fst (g (backend st) fps L) = None) →
  ∃ st', generate_response_wrapped p h L m st = (Ok (per_prompt GENERATION_FAILED p), st').
Proof.
  intros Hg Hfail. unfold generate_response_wrapped. rewrite Hg.
  unfold try_except, bind at 1.
  destruct (mapM_of_option KeyError (full_prompt m (PyStr.join " " h)) (prompt_items p) st)
    as [[fps|e] ->]; [|by eexists].
  unfold bind at 1, call_generator. specialize (Hfail fps).
  destruct (g (backend st) fps L) as [[texts|] b]; [done|by eexists].
Qed.

(** C4: for a list of prompts the generation operation does not return the
    fallback messages: the memoizing decorator hashes its arguments first and
    raises [TypeError] on a list, with or without a usable pipeline, before
    the body of the function runs. *)
Theorem list_prompt_raises (l history : list string) (max_length : Z) (mode : string)
    (st : state) :
  generate_response (PList l) history max_length mode st = (Raise TypeError, st) ∧
  generate_response_with_cache (PList l) history max_length mode st = (Raise TypeError, st).
Proof. done. Qed.

(** *** The key of the shared cache *)

(** C7: the key of the shared cache is the text ["cache:"], the prompt, a
    colon, the mode, a colon and the decimal [max_length]; equal inputs give
    equal keys; and it is the key the lookup sends to the store whatever the
    state, so whatever histories are stored. *)
Theorem cache_key_format (prompt mode : string) (max_length : Z) (now : Z)
    (st : state) (db : gmap string entry) :
  redis_client st = Some db →
  get_redis_key prompt mode max_length =
    "cache:" +:+ prompt +:+ ":" +:+ mode +:+ ":" +:+ PyStr.str_of_int max_length ∧
  (∀ prompt' mode' max_length',
     prompt' = prompt → mode' = mode → max_length' = max_length →
     get_redis_key prompt' mode' max_length' = get_redis_key prompt mode max_length) ∧
  get_response_from_cache now prompt mode max_length st =
    (Ok (redis_lookup now db
           ("cache:" +:+ prompt +:+ ":" +:+ mode +:+ ":" +:+ PyStr.str_of_int max_length)),
     log_cmd
       (GET ("cache:" +:+ prompt +:+ ":" +:+ mode +:+ ":" +:+ PyStr.str_of_int max_length))
       st).
Proof.
  intros Hdb. split_and!; [done|by intros ??? -> -> ->|].
  by apply get_response_from_cache_connected.
Qed.

(** C10, as amended: on requests with valid modes the key derivation is
    injective, although the prompt may hold colons: the mode and the decimal
    [max_length] hold none and are read off from the right.  Two requests
    that share a key are the same request. *)
Theorem cache_key_injective_on_valid_modes (prompt mode prompt' mode' : string)
    (max_length max_length' : Z) :
  mode ∈ VALID_MODES → mode' ∈ VALID_MODES →
  get_redis_key prompt mode max_length = get_redis_key prompt' mode' max_length' →
  (prompt, mode, max_length) = (prompt', mode', max_length').
Proof.
  intros Hm Hm' Hk. by destruct (get_redis_key_inj _ _ _ _ _ _ Hm Hm' Hk) as (-> & -> & ->).
Qed.

(** C10, as stated, does not hold: no two distinct requests with valid modes
    share a key. *)
Lemma no_collision_between_valid_modes :
  ¬ ∃ (prompt mode prompt' mode' : string) (max_length max_length' : Z),
      mode ∈ VALID_MODES ∧ mode' ∈ VALID_MODES ∧
      (prompt, mode, max_length) ≠ (prompt', mode', max_length') ∧
      get_redis_key prompt mode max_length = get_redis_key prompt' mode' max_length'.
Proof.
  intros (p & m & p' & m' & L & L' & Hm & Hm' & Hne & Hk).
  by destruct (get_redis_key_inj _ _ _ _ _ _ Hm Hm' Hk) as (-> & -> & ->).
Qed.

(** Collisions need a mode with a colon, which validation rejects. *)
Example collision_with_invalid_mode :
  get_redis_key "a" "b:general" 100 = get_redis_key "a:b" "general" 100 ∧
  "b:general" ∉ VALID_MODES.
Proof. split; [reflexivity | compute_done]. Qed.

Example cache_key_of_the_test : get_redis_key "Test" "general" 100 = "cache:Test:general:100".
Proof. reflexivity. Qed.

End MoreHandlerFacts.

(** ** The handlers at work *)

Section Runs.
#[local] Existing Instance echo_deployment.

(** C1: with six turns stored for the user, a single-prompt request leaves
    the stored history as it was: the slice [[:6]] keeps the head of the
    appended history, and the two new turns, the most recent ones, are cut
    off.  The last six turns of the appended history are others. *)
Theorem single_request_drops_new_turns :
  let st := fresh (Some {[ "u1" := mkEntry (JHistory six_turns) None ]}) 0%nat in
  let run := generate_text (mkGenerateRequest "hi" (Some "u1") 100 "general") test_key 0 st in
  let appended := six_turns ++ ["User: hi"; "AI: #0"] in
  fst run = Ok (Generated "hi" (VStr "#0") appended, 200%nat) ∧
  (db ← redis_client (snd run); redis_lookup 0 db "u1") = Some (JHistory six_turns) ∧
  first_n 6 appended = six_turns ∧
  last_n 6 appended = ["User: c"; "AI: d"; "User: e"; "AI: f"; "User: hi"; "AI: #0"].
Proof. vm_compute. done. Qed.

(** C6: with six turns stored for the user, a batch of two prompts is
    generated against the stored history for both prompts (the two memoized
    calls carry it), and the history written back is the stored one again:
    the slice [[:6]] cuts off all four new turns, where the last six turns
    would end with them. *)
Theorem batch_request_drops_new_turns :
  let st := fresh (Some {[ "u1" := mkEntry (JHistory six_turns) None ]}) 0%nat in
  let run :=
    generate_batch_text (mkBatchGenerateRequest ["P1"; "P2"] (Some "u1") 100 "general")
      test_key 0 st in
  let outputs := [VStr "#0"; VStr "#1"] in
  let appended := six_turns ++ ["User: P1"; "User: P2"] ++ ["AI: #0"; "AI: #1"] in
  fst run = Ok (GeneratedBatch ["P1"; "P2"] outputs six_turns, 200%nat) ∧
  fst <$> outer_lru (snd run) =
    [(PStr "P2", six_turns, 100, "general"); (PStr "P1", six_turns, 100, "general")] ∧
  (db ← redis_client (snd run); redis_lookup 0 db "u1") = Some (JHistory six_turns) ∧
  first_n 6 appended = six_turns ∧
  last_n 6 appended = ["User: e"; "AI: f"; "User: P1"; "User: P2"; "AI: #0"; "AI: #1"].
Proof. vm_compute. done. Qed.

(** The spec's batch example, on an empty history: nothing is cut. *)
Example batch_on_empty_history :
  fst (generate_batch_text (mkBatchGenerateRequest ["P1"; "P2"] (Some "u1") 100 "general")
         test_key 0 (fresh (Some ∅) 0%nat)) =
  Ok (GeneratedBatch ["P1"; "P2"] [VStr "#0"; VStr "#1"]
        ["User: P1"; "User: P2"; "AI: #0"; "AI: #1"], 200%nat).
Proof. vm_compute. done. Qed.

Lemma invalid_mode_is_rejected_witness :
  let st := fresh (Some ∅) 0%nat in
  ∃ (e e' : string) (status status' : nat),
    generate_text (mkGenerateRequest "Test" None 100 "invalid_mode") test_key 0 st =
      (Ok (Error e, status), st) ∧
    generate_batch_text (mkBatchGenerateRequest ["Test"] None 100 "invalid_mode")
      test_key 0 st = (Ok (Error e', status'), st) ∧
    (validate_api_key test_key = true →
     e = INVALID_MODE ∧ e' = INVALID_MODE ∧ status = 400%nat ∧ status' = 400%nat) ∧
    ∀ m, m ∈ VALID_MODES → PyStr.contains m INVALID_MODE = true.
Proof.
  apply (invalid_mode_is_rejected
           (mkGenerateRequest "Test" None 100 "invalid_mode")
           (mkBatchGenerateRequest ["Test"] None 100 "invalid_mode")
           test_key 0 (fresh (D := echo_deployment) (Some ∅) 0%nat)).
  - compute_done.
  - compute_done.
Defined.

Lemma cache_hit_changes_nothing_witness :
  let db : gmap string entry :=
    {[ "cache:Test:general:100" :=
         mkEntry (JResponse "Test" (VStr "Cached response.") ["User: old"]) (Some 600) ]} in
  let st := fresh (Some db) 0%nat in
  ∃ r st',
    generate_text (mkGenerateRequest "Test" (Some "u1") 100 "general") test_key 0 st =
      (r, st') ∧
    redis_client st' = Some db ∧
    backend_calls st' = backend_calls st ∧ backend st' = backend st ∧
    outer_lru st' = outer_lru st ∧ inner_lru st' = inner_lru st ∧
    (redis_log st' = redis_log st ∨
     redis_log st' = redis_log st ++ [GET (get_redis_key "Test" "general" 100)]) ∧
    (validate_api_key test_key = true → "general" ∈ VALID_MODES →
     r = Ok (Generated "Test" (VStr "Cached response.") ["User: old"], 200%nat) ∧
     redis_log st' = redis_log st ++ [GET (get_redis_key "Test" "general" 100)]).
Proof.
  intros db st.
  apply (cache_hit_changes_nothing (mkGenerateRequest "Test" (Some "u1") 100 "general")
           test_key 0 st db "Test" (VStr "Cached response.") ["User: old"]).
  - reflexivity.
  - vm_compute. reflexivity.
Defined.

(** The run of the test of the shared cache: the stored output is served and
    the looked-up key is the one the test expects. *)
Example cached_response_is_served :
  let db : gmap string entry :=
    {[ "cache:Test:general:100" :=
         mkEntry (JResponse "Test" (VStr "Cached response.") []) None ]} in
  let run :=
    generate_text (mkGenerateRequest "Test" None 100 "general") test_key 0
      (fresh (Some db) 0%nat) in
  fst run = Ok (Generated "Test" (VStr "Cached response.") [], 200%nat) ∧
  redis_log (snd run) = [GET "cache:Test:general:100"] ∧
  backend_calls (snd run) = 0%nat.
Proof. vm_compute. done. Qed.

Lemma cache_key_format_witness :
  let st := fresh (D := echo_deployment) (Some ∅) 0%nat in
  get_redis_key "Test" "general" 100 =
    "cache:" +:+ "Test" +:+ ":" +:+ "general" +:+ ":" +:+ PyStr.str_of_int 100 ∧
  (∀ prompt' mode' max_length',
     prompt' = "Test" → mode' = "general" → max_length' = 100 →
     get_redis_key prompt' mode' max_length' = get_redis_key "Test" "general" 100) ∧
  get_response_from_cache 0 "Test" "general" 100 st =
    (Ok (redis_lookup 0 ∅
           ("cache:" +:+ "Test" +:+ ":" +:+ "general" +:+ ":" +:+ PyStr.str_of_int 100)),
     log_cmd
       (GET ("cache:" +:+ "Test" +:+ ":" +:+ "general" +:+ ":" +:+ PyStr.str_of_int 100))
       st).
Proof.
  intros st. apply (cache_key_format "Test" "general" 100 0 st ∅). reflexivity.
Defined.

Lemma repeated_request_same_output_witness :
  let req := mkGenerateRequest "hi" (Some "u1") 100 "general" in
  let first := generate_text req test_key 0 (fresh (Some ∅) 0%nat) in
  ∃ st2,
    generate_text req test_key 599 (snd first) = (fst first, st2) ∧
    output_of (fst (generate_text req test_key 599 (snd first))) = output_of (fst first).
Proof.
  intros req first.
  apply (repeated_request_same_output req test_key 0 599
           (fresh (D := echo_deployment) (Some ∅) 0%nat)).
  - apply surjective_pairing.
  - compute_done.
Defined.

(** The entry is still served at the instant of its expiry; once that has
    passed the request is generated anew, against the history the first
    request wrote, and the pipeline may answer otherwise. *)
Example repeated_request_after_expiry :
  let req := mkGenerateRequest "hi" (Some "u1") 100 "general" in
  let first := generate_text req test_key 0 (fresh (Some ∅) 0%nat) in
  output_of (fst first) = Some (VStr "#0") ∧
  output_of (fst (generate_text req test_key 600 (snd first))) = Some (VStr "#0") ∧
  output_of (fst (generate_text req test_key 601 (snd first))) = Some (VStr "#1").
Proof. vm_compute. done. Qed.

Lemma cache_key_injective_on_valid_modes_witness :
  ("a:b", "general", 100) = ("a:b", "general", 100).
Proof.
  apply (cache_key_injective_on_valid_modes "a:b" "general" "a:b" "general" 100 100).
  - compute_done.
  - compute_done.
  - reflexivity.
Defined.

End Runs.

Section RunsWithoutModel.
#[local] Existing Instance modelless_deployment.

(** A string prompt gets the literal message, and so does a tuple of
    prompts, one message per prompt; a list of prompts raises. *)
Example unavailable_model_messages :
  fst (generate_response (PStr "hi") [] 50 "general" (fresh None 0%nat)) =
    Ok (VStr MODEL_UNAVAILABLE) ∧
  fst (generate_response (PTuple ["a"; "b"]) [] 50 "general" (fresh None 0%nat)) =
    Ok (VList [MODEL_UNAVAILABLE; MODEL_UNAVAILABLE]) ∧
  fst (generate_response (PList ["a"; "b"]) [] 50 "general" (fresh None 0%nat)) =
    Raise TypeError.
Proof. vm_compute. done. Qed.

(** With the model unavailable the single-prompt endpoint still answers 200,
    with the literal message as output. *)
Example unavailable_model_request :
  fst (generate_text (mkGenerateRequest "hi" None 100 "general") test_key 0
         (fresh (Some ∅) 0%nat)) =
  Ok (Generated "hi" (VStr MODEL_UNAVAILABLE) [], 200%nat).
Proof. vm_compute. done. Qed.

End RunsWithoutModel.

Section RunsWithFailingModel.
#[local] Existing Instance failing_deployment.

Example failing_model_messages :
  fst (generate_response (PStr "hi") [] 50 "general" (fresh None 0%nat)) =
    Ok (VStr GENERATION_FAILED) ∧
  fst (generate_response (PTuple ["a"; "b"]) [] 50 "general" (fresh None 0%nat)) =
    Ok (VList [GENERATION_FAILED; GENERATION_FAILED]) ∧
  fst (generate_response (PList ["a"; "b"]) [] 50 "general" (fresh None 0%nat)) =
    Raise TypeError.
Proof. vm_compute. done. Qed.

End RunsWithFailingModel.

(** * Further properties *)

(** ** What sanitization does to an input *)

#[local] Arguments String.prefix : simpl never.

(** X1: sanitizing twice is sanitizing once. *)
Theorem sanitize_input_idempotent (user_input : string) :
  sanitize_input (sanitize_input user_input) = sanitize_input user_input.
Proof.
  apply sanitize_input_clean;
    [apply sanitize_input_brace_free | apply sanitize_input_no_backticks].
Qed.

(** X2: the inputs that pass unchanged are exactly those without an opening
    brace, a closing brace or a run of three backticks. *)
Theorem sanitize_input_fixed_points (user_input : string) :
  sanitize_input user_input = user_input ↔
  PyStr.contains "{" user_input = false ∧
  PyStr.contains "}" user_input = false ∧
  PyStr.contains "```" user_input = false.
Proof.
  split.
  - intros <-. split_and!;
      [apply sanitize_input_no_open | apply sanitize_input_no_close
      |apply sanitize_input_no_backticks].
  - intros (Ho & Hc & Hb). by apply sanitize_input_clean.
Qed.

(** X3: sanitizing only deletes: the result is never longer than the input,
    and what it deletes are braces and backticks, every other character
    staying in its place among the others. *)
Theorem sanitize_input_only_deletes (user_input : string) :
  (String.length (sanitize_input user_input) ≤ String.length user_input)%nat ∧
  PyStr.keep (fun c => negb (injection_char c)) (sanitize_input user_input) =
  PyStr.keep (fun c => negb (injection_char c)) user_input.
Proof. split; [apply sanitize_input_length | apply sanitize_input_keeps_others]. Qed.

Example sanitize_input_merges_backticks :
  sanitize_input "a`{`}`b" = "ab" ∧ sanitize_input "````" = "`".
Proof. done. Qed.

(** ** Relations kept by every step *)

Section Keeps.
Context `{Deployment}.
Context (P : state → state → Prop).
Context (P_refl : ∀ st, P st st) (P_trans : ∀ x y z, P x y → P y z → P x z).

Lemma keeps_ret {A} (a : A) : keeps P (ret a).
Proof. intros st r st' [= <- <-]. apply P_refl. Qed.

Lemma keeps_raise {A} (e : exn) : keeps P (raise (A := A) e).
Proof. intros st r st' [= <- <-]. apply P_refl. Qed.

Lemma keeps_gets {A} (f : state → A) : keeps P (gets f).
Proof. intros st r st' [= <- <-]. apply P_refl. Qed.

Lemma keeps_modify (f : state → state) : (∀ st, P st (f st)) → keeps P (modify f).
Proof. intros Hf st r st' [= <- <-]. apply Hf. Qed.

Lemma keeps_of_option {A} (e : exn) (o : option A) : keeps P (of_option e o).
Proof. destruct o; [apply keeps_ret | apply keeps_raise]. Qed.

Lemma keeps_bind {A B} (m : M A) (k : A → M B) :
  keeps P m → (∀ a, keeps P (k a)) → keeps P (bind m k).
Proof.
  intros Hm Hk st r st'. unfold bind.
  destruct (m st) as [[a|e] st1] eqn:Hrun.
  - intros Hrest. eapply P_trans; [by eapply Hm | by eapply Hk].
  - intros [= <- <-]. by eapply Hm.
Qed.

Lemma keeps_try_except {A} (m handler : M A) (caught : exn → bool) :
  keeps P m → keeps P handler → keeps P (try_except m caught handler).
Proof.
  intros Hm Hh st r st'. unfold try_except.
  destruct (m st) as [[a|e] st1] eqn:Hrun.
  - intros [= <- <-]. by eapply Hm.
  - destruct (caught e).
    + intros Hrest. eapply P_trans; [by eapply Hm | by eapply Hh].
    + intros [= <- <-]. by eapply Hm.
Qed.

Lemma keeps_mapM {A B} (f : A → M B) (l : list A) :
  (∀ a, keeps P (f a)) → keeps P (mapM f l).
Proof.
  intros Hf. induction l as [|a l IH]; [apply keeps_ret|].
  cbn [mapM]. apply keeps_bind; [done|]. intros b.
  apply keeps_bind; [done|]. intros bs. apply keeps_ret.
Qed.

End Keeps.

Lemma keeps_weaken `{Deployment} {A} (P Q : state → state → Prop) (m : M A) :
  (∀ st st', P st st' → Q st st') → keeps P m → keeps Q m.
Proof. intros HPQ Hm st r st' Hrun. apply HPQ. by eapply Hm. Qed.

(** What a sequence returns is what its last step returns. *)
Lemma yields_bind `{Deployment} {A B} (Q : B → Prop) (m : M A) (k : A → M B) :
  (∀ a, yields Q (k a)) → yields Q (bind m k).
Proof.
  intros Hk st b st'. unfold bind. destruct (m st) as [[a|e] st1]; [|done].
  apply Hk.
Qed.

Lemma yields_ret `{Deployment} {A} (Q : A → Prop) (a : A) : Q a → yields Q (ret a).
Proof. by intros Ha st b st' [= <- _]. Qed.

Lemma yields_raise `{Deployment} {A} (Q : A → Prop) (e : exn) : yields Q (raise e).
Proof. by intros st b st'. Qed.

(** ** The steps that only talk to the store *)

Section StoreSteps.
Context `{Deployment}.

Lemma only_store_changed_refl (st : state) : only_store_changed st st.
Proof. done. Qed.

Lemma only_store_changed_trans (x y z : state) :
  only_store_changed x y → only_store_changed y z → only_store_changed x z.
Proof. unfold only_store_changed. intros (?&?&?&?) (?&?&?&?). split_and!; congruence. Qed.

Lemma redis_get_store (now : Z) (db : gmap string entry) (key : string) :
  keeps only_store_changed (redis_get now db key).
Proof. by intros st r st' [= <- <-]. Qed.

Lemma redis_set_store (db : gmap string entry) (key : string) (v : json_value) :
  keeps only_store_changed (redis_set db key v).
Proof. by intros st r st' [= <- <-]. Qed.

Lemma redis_setex_store (now : Z) (db : gmap string entry) (key : string) (ttl : Z)
    (v : json_value) :
  keeps only_store_changed (redis_setex now db key ttl v).
Proof.
  intros st r st'. unfold redis_setex, bind, modify, raise.
  by destruct (ttl <=? 0); intros [= <- <-].
Qed.

Lemma get_response_from_cache_store (now : Z) (p m : string) (L : Z) :
  keeps only_store_changed (get_response_from_cache now p m L).
Proof.
  intros st r st'. unfold get_response_from_cache, redis_get, bind, gets, modify, ret.
  destruct (redis_client st) as [db|]; [destruct (redis_lookup now db _)|];
    by intros [= <- <-].
Qed.

Lemma set_response_to_cache_store (now : Z) (p m : string) (L : Z) (doc : json_value) :
  keeps only_store_changed (set_response_to_cache now p m L doc).
Proof.
  intros st r st'. unfold set_response_to_cache, bind at 1, gets.
  destruct (redis_client st) as [db|]; [apply redis_setex_store|by intros [= <- <-]].
Qed.

Lemma load_history_store (now : Z) (uid : option string) :
  keeps only_store_changed (load_history now uid).
Proof.
  intros st r st'. unfold load_history, bind at 1, gets.
  destruct uid as [u|], (redis_client st) as [db|]; try by intros [= <- <-].
  destruct (user_given (Some u)); [|by intros [= <- <-]].
  apply keeps_try_except;
    [apply only_store_changed_trans| |apply keeps_ret, only_store_changed_refl].
  apply keeps_bind;
    [apply only_store_changed_trans|apply redis_get_store|].
  intros [[turns|i o h]|]; try apply keeps_ret; try apply keeps_raise;
    apply only_store_changed_refl.
Qed.

End StoreSteps.
(** ** The endpoints keep what their steps keep *)

(** A family of relations [P n] between the state before and after, graded by
    the number [n] of generations allowed in between: when every step of an
    endpoint keeps [P 0], and a generation keeps [P 1], a single request
    keeps [P 1] and a batch keeps [P] of the number of its prompts. *)
Section EndpointsKeep.
Context `{Deployment}.
Context (P : nat → state → state → Prop).
Context (P_refl : ∀ n st, P n st st).
Context (P_add : ∀ a b x y z, P a x y → P b y z → P (a + b) x z).
Context (P_get : ∀ now p m L, keeps (P 0) (get_response_from_cache now p m L)).
Context (P_set : ∀ now p m L i o h,
           keeps (P 0) (set_response_to_cache now p m L (JResponse i o h))).
Context (uid : option string).
Context (P_load : ∀ now, keeps (P 0) (load_history now uid)).
Context (P_gen : ∀ p h L m, keeps (P 1) (generate_response_with_cache (PStr p) h L m)).
Context (P_write : ∀ st db u turns,
           uid = Some u → user_given uid = true → redis_client st = Some db →
           P 0 st (snd (redis_set db u (JHistory (first_n 6 turns)) st))).

Lemma keeps_lift {A} (n : nat) (m : M A) : keeps (P 0) m → keeps (P n) m.
Proof. intros Hm st r st' Hrun. apply (P_add 0 n st st' st'); [by eapply Hm|done]. Qed.

Lemma keeps_ret_at {A} (n : nat) (a : A) : keeps (P n) (ret a).
Proof. by intros st r st' [= <- <-]. Qed.

Lemma keeps_raise_at {A} (n : nat) (e : exn) : keeps (P n) (raise (A := A) e).
Proof. by intros st r st' [= <- <-]. Qed.

Lemma keeps_bind_add {A B} (a b : nat) (m : M A) (k : A → M B) :
  keeps (P a) m → (∀ x, keeps (P b) (k x)) → keeps (P (a + b)) (bind m k).
Proof.
  intros Hm Hk st r st'. unfold bind.
  destruct (m st) as [[x|e] st1] eqn:Hrun.
  - intros Hrun'. eapply P_add; [by eapply Hm|by eapply Hk].
  - intros [= <- <-]. eapply P_add; [by eapply Hm|done].
Qed.

Lemma keeps_bind_first {A B} (n : nat) (m : M A) (k : A → M B) :
  keeps (P 0) m → (∀ x, keeps (P n) (k x)) → keeps (P n) (bind m k).
Proof. apply (keeps_bind_add 0 n). Qed.

Lemma keeps_bind_last {A B} (n : nat) (m : M A) (k : A → M B) :
  keeps (P n) m → (∀ x, keeps (P 0) (k x)) → keeps (P n) (bind m k).
Proof. rewrite <-(Nat.add_0_r n) at 2. apply keeps_bind_add. Qed.

Lemma keeps_caught {A} (n : nat) (m : M A) (caught : exn → bool) (a : A) :
  keeps (P n) m → keeps (P n) (try_except m caught (ret a)).
Proof.
  intros Hm st r st'. unfold try_except.
  destruct (m st) as [[x|e] st1] eqn:Hrun.
  - intros [= <- <-]. by eapply Hm.
  - destruct (caught e); intros [= <- <-]; by eapply Hm.
Qed.

Lemma cached_output_keeps (n : nat) (doc : json_value) : keeps (P n) (cached_output doc).
Proof. destruct doc; [apply keeps_raise_at | apply keeps_ret_at]. Qed.

Lemma cached_history_keeps (n : nat) (doc : json_value) : keeps (P n) (cached_history doc).
Proof. destruct doc; [apply keeps_raise_at | apply keeps_ret_at]. Qed.

Lemma generate_text_keeps (body : GenerateRequest) (api_key : option string) (now : Z) :
  user_id body = uid → keeps (P 1) (generate_text body api_key now).
Proof.
  intros Huid. unfold generate_text. rewrite Huid. apply keeps_caught.
  destruct (validate_api_key api_key); [|apply keeps_ret_at].
  destruct (bool_decide (mode body ∈ VALID_MODES)); [|apply keeps_ret_at].
  cbn [negb]. apply keeps_bind_first; [done|]. intros cached.
  destruct (truthy cached).
  { destruct cached as [doc|]; [|apply keeps_raise_at].
    apply keeps_bind_first; [apply cached_output_keeps|]. intros output.
    apply keeps_bind_first; [apply cached_history_keeps|]. intros history.
    apply keeps_ret_at. }
  apply keeps_bind_first; [done|]. intros history.
  apply keeps_bind_last; [done|]. intros output.
  assert (∀ h, keeps (P 0)
            (let* _ := set_response_to_cache now (prompt body) (mode body)
                         (max_length body) (JResponse (prompt body) output h) in
             ret (Generated (prompt body) output h, 200%nat))) as Hrest.
  { intros h. apply keeps_bind_first; [done|]. intros _. apply keeps_ret_at. }
  intros st r st'. unfold bind at 1, gets.
  destruct uid as [u|] eqn:Hu; [|apply Hrest].
  destruct (redis_client st) as [db|] eqn:Hdb; [|apply Hrest].
  destruct (user_given (Some u)) eqn:Hgiven; [|apply Hrest].
  unfold bind at 1 2. cbn [redis_set modify ret]. intros Hrun.
  eapply (P_add 0 0 st _ st'); [|by eapply Hrest].
  by apply (P_write st db u (history ++ [User (prompt body); AI output])).
Qed.

Lemma batch_outputs_keeps (now : Z) (ps history : list string) (L : Z) (m : string) :
  keeps (P (length ps)) (batch_outputs now ps history L m).
Proof.
  induction ps as [|p ps IH]; [apply keeps_ret_at|].
  cbn [batch_outputs length]. apply keeps_bind_first; [done|]. intros cached.
  apply (keeps_bind_add 1 (length ps)).
  - destruct (truthy cached).
    + destruct cached as [doc|]; [apply cached_output_keeps|apply keeps_raise_at].
    + apply keeps_bind_last; [done|]. intros output.
      apply keeps_bind_first; [done|]. intros _. apply keeps_ret_at.
  - intros output. apply keeps_bind_last; [done|]. intros outputs. apply keeps_ret_at.
Qed.

Lemma generate_batch_text_keeps (body : BatchGenerateRequest) (api_key : option string)
    (now : Z) :
  batch_user_id body = uid →
  keeps (P (length (prompts body))) (generate_batch_text body api_key now).
Proof.
  intros Huid. unfold generate_batch_text. rewrite Huid. apply keeps_caught.
  destruct (validate_api_key api_key); [|apply keeps_ret_at].
  destruct (bool_decide (batch_mode body ∈ VALID_MODES)); [|apply keeps_ret_at].
  cbn [negb]. apply keeps_bind_first; [done|]. intros history.
  apply keeps_bind_last; [apply batch_outputs_keeps|]. intros outputs.
  intros st r st'. unfold bind at 1, gets.
  destruct uid as [u|] eqn:Hu;
    [|unfold bind, ret; intros [= <- <-]; apply P_refl].
  destruct (redis_client st) as [db|] eqn:Hdb;
    [|unfold bind, ret; intros [= <- <-]; apply P_refl].
  destruct (user_given (Some u)) eqn:Hgiven;
    [|unfold bind, ret; intros [= <- <-]; apply P_refl].
  unfold bind at 1. cbn [redis_set modify ret]. intros [= <- <-].
  by apply (P_write st db u (history ++ (User <$> prompts body) ++ (AI <$> outputs))).
Qed.

End EndpointsKeep.

(** ** The memoized generation, step by step *)

Ltac fields :=
  cbn [redis_client redis_log outer_lru inner_lru backend backend_calls
       set_inner_lru set_outer_lru set_backend set_redis log_cmd].

Section GenerationSteps.
Context `{Deployment}.

Lemma removelast_len {A} (l : list A) : length (removelast l) = Nat.pred (length l).
Proof.
  induction l as [|a [|b l] IH]; [done..|].
  change (removelast (a :: b :: l)) with (a :: removelast (b :: l)).
  cbn [length] in *. by rewrite IH.
Qed.

Lemma lru_remove_len (k : memo_key) (c : lru) :
  is_Some (lru_find k c) → S (length (lru_remove k c)) = length c.
Proof.
  induction c as [|[k0 v0] c IH]; [by intros [? [=]]|].
  cbn [lru_find lru_remove]. case_decide; [done|].
  intros Hk. cbn [length]. by rewrite IH.
Qed.

Lemma lru_touch_len (k : memo_key) (v : value) (c : lru) :
  is_Some (lru_find k c) → length (lru_touch k v c) = length c.
Proof. intros Hk. unfold lru_touch. cbn [length]. by apply lru_remove_len. Qed.

Lemma lru_insert_len (n : nat) (k : memo_key) (v : value) (c : lru) :
  (0 < n)%nat → (length c ≤ n)%nat → (length (lru_insert n k v c) ≤ n)%nat.
Proof.
  intros Hn Hc. unfold lru_insert. cbn [length].
  destruct (n <=? length c)%nat eqn:Hfull.
  - apply Nat.leb_le in Hfull. rewrite removelast_len. lia.
  - apply Nat.leb_gt in Hfull. lia.
Qed.

(** The body of [generate_response] touches the pipeline only, with at most
    one call, and none where there is no pipeline. *)
Lemma generate_response_wrapped_step (p : prompt_arg) (h : list string) (L : Z)
    (m : string) (st : state) (r : result value) (st' : state) :
  generate_response_wrapped p h L m st = (r, st') →
  same_store st st' ∧ outer_lru st' = outer_lru st ∧ inner_lru st' = inner_lru st ∧
  calls_within calls_per_generation st st'.
Proof.
  unfold generate_response_wrapped, calls_within, same_store, calls_per_generation.
  destruct generator as [g|]; [|intros [= <- <-]; split_and!; done || lia].
  unfold try_except, bind at 1.
  destruct (mapM_of_option KeyError (full_prompt m (PyStr.join " " h)) (prompt_items p) st)
    as [[fps|e] ->]; [|intros [= <- <-]; split_and!; done || lia].
  unfold bind at 1, call_generator.
  destruct (g (backend st) fps L) as [[texts|] b];
    [|intros [= <- <-]; fields; split_and!; done || lia].
  unfold bind at 1. destruct (clean_outputs fps texts) as [outs|];
    [|intros [= <- <-]; fields; split_and!; done || lia].
  cbn [of_option ret]. destruct (is_str p);
    [|intros [= <- <-]; fields; split_and!; done || lia].
  unfold bind, of_option. destruct (head outs);
    intros [= <- <-]; fields; split_and!; done || lia.
Qed.

Lemma generate_response_step (p : prompt_arg) (h : list string) (L : Z)
    (m : string) (st : state) (r : result value) (st' : state) :
  generate_response p h L m st = (r, st') →
  same_store st st' ∧ outer_lru st' = outer_lru st ∧
  ((length (inner_lru st) ≤ 128)%nat → (length (inner_lru st') ≤ 128)%nat) ∧
  calls_within calls_per_generation st st'.
Proof.
  unfold generate_response, lru_cache, same_store, calls_within.
  destruct (hashable p); cbn [negb];
    [|intros [= <- <-]; split_and!; done || lia].
  unfold bind at 1, gets.
  destruct (lru_find (p, h, L, m) (inner_lru st)) as [v|] eqn:Hfind.
  { intros [= <- <-]. fields. split_and!; try done; try lia.
    by rewrite lru_touch_len. }
  unfold bind at 1.
  destruct (generate_response_wrapped p h L m st) as [[v|e] st1] eqn:Hw;
    apply generate_response_wrapped_step in Hw as ([Hc Hl] & Ho & Hi & Hcalls);
    unfold calls_within in Hcalls.
  2: { intros [= <- <-]. split_and!; try done; try lia. by rewrite Hi. }
  unfold bind at 1. cbn [gets].
  destruct (lru_find (p, h, L, m) (inner_lru st1)).
  { intros [= <- <-]. split_and!; try done; try lia. by rewrite Hi. }
  intros [= <- <-]. fields. split_and!; try done; try lia.
  intros Hb. apply lru_insert_len; [lia|]. by rewrite Hi.
Qed.

Lemma generate_response_with_cache_step (p : prompt_arg) (h : list string) (L : Z)
    (m : string) (st : state) (r : result value) (st' : state) :
  generate_response_with_cache p h L m st = (r, st') →
  same_store st st' ∧ bounded_stays st st' ∧
  calls_within calls_per_generation st st'.
Proof.
  unfold generate_response_with_cache, lru_cache, bounded_stays, lru_bounded,
    same_store, calls_within.
  destruct (hashable p); cbn [negb];
    [|intros [= <- <-]; split_and!; done || lia].
  unfold bind at 1, gets.
  destruct (lru_find (p, h, L, m) (outer_lru st)) as [v|] eqn:Hfind.
  { intros [= <- <-]. fields. split_and!; try done; try lia.
    by rewrite lru_touch_len. }
  unfold bind at 1.
  destruct (generate_response p h L m st) as [[v|e] st1] eqn:Hw;
    apply generate_response_step in Hw as ([Hc Hl] & Ho & Hi & Hcalls);
    unfold calls_within in Hcalls.
  2: { intros [= <- <-]. split_and!; try done; try lia. rewrite Ho. intros []. auto. }
  unfold bind at 1. cbn [gets].
  destruct (lru_find (p, h, L, m) (outer_lru st1)).
  { intros [= <- <-]. split_and!; try done; try lia. rewrite Ho. intros []. auto. }
  intros [= <- <-]. fields. split_and!; try done; try lia.
  intros [Hb1 Hb2]. split; [|auto]. apply lru_insert_len; [lia|]. by rewrite Ho.
Qed.

End GenerationSteps.
(** ** What a request keeps *)

Section RequestsKeep.
Context `{Deployment}.

Lemma set_response_to_cache_connected (now : Z) (p m : string) (L : Z)
    (doc : json_value) (st : state) (db : gmap string entry) :
  redis_client st = Some db →
  set_response_to_cache now p m L doc st =
    let st1 := log_cmd (SETEX (get_redis_key p m L) CACHE_TTL_SECONDS doc) st in
    if CACHE_TTL_SECONDS <=? 0 then (Raise ResponseError, st1)
    else (Ok tt, set_redis (<[get_redis_key p m L :=
                               mkEntry doc (Some (now + CACHE_TTL_SECONDS))]> db) st1).
Proof.
  intros Hdb. unfold set_response_to_cache, bind at 1, gets. rewrite Hdb.
  unfold redis_setex, bind, modify. by destruct (CACHE_TTL_SECONDS <=? 0).
Qed.

Lemma set_response_to_cache_disconnected (now : Z) (p m : string) (L : Z)
    (doc : json_value) (st : state) :
  redis_client st = None → set_response_to_cache now p m L doc st = (Ok tt, st).
Proof. intros Hdb. unfold set_response_to_cache, bind, gets. by rewrite Hdb. Qed.

Lemma cache_key_get_redis_key (p m : string) (L : Z) :
  cache_key (get_redis_key p m L) = true.
Proof.
  unfold cache_key, get_redis_key.
  change "cache:" with (String "c" (String "a" (String "c" (String "h" (String "e"
    (String ":" EmptyString)))))).
  rewrite !app_cons, !prefix_cons, !bool_decide_eq_true_2 by done.
  apply prefix_nil.
Qed.

(** *** The sizes of the memo stores *)

Lemma only_store_changed_bounded (st st' : state) :
  only_store_changed st st' → bounded_stays st st'.
Proof. intros (Ho & Hi & _). unfold bounded_stays, lru_bounded. by rewrite Ho, Hi. Qed.

Lemma bounded_stays_trans (x y z : state) :
  bounded_stays x y → bounded_stays y z → bounded_stays x z.
Proof. unfold bounded_stays. auto. Qed.

(** *** The calls of the pipeline *)

Lemma only_store_changed_calls (st st' : state) :
  only_store_changed st st' → calls_within 0 st st'.
Proof. intros (_ & _ & _ & Hc). unfold calls_within. lia. Qed.

Lemma calls_within_add (a b : nat) (x y z : state) :
  calls_within a x y → calls_within b y z → calls_within (a + b) x z.
Proof. unfold calls_within. lia. Qed.

(** *** Without a store *)

Lemma same_store_refl (st : state) : same_store st st.
Proof. done. Qed.

Lemma offline_stays_trans (x y z : state) :
  offline_stays x y → offline_stays y z → offline_stays x z.
Proof.
  unfold offline_stays, same_store. intros Hxy Hyz Hx.
  destruct (Hxy Hx) as [Hc Hl]. rewrite Hx in Hc.
  destruct (Hyz Hc) as [Hc' Hl']. split; congruence.
Qed.

Lemma get_response_from_cache_offline (now : Z) (p m : string) (L : Z) :
  keeps offline_stays (get_response_from_cache now p m L).
Proof.
  intros st r st' Hrun Hdb.
  rewrite get_response_from_cache_disconnected in Hrun by done. by simplify_eq.
Qed.

Lemma set_response_to_cache_offline (now : Z) (p m : string) (L : Z) (doc : json_value) :
  keeps offline_stays (set_response_to_cache now p m L doc).
Proof.
  intros st r st' Hrun Hdb.
  rewrite set_response_to_cache_disconnected in Hrun by done. by simplify_eq.
Qed.

Lemma load_history_offline (now : Z) (uid : option string) :
  keeps offline_stays (load_history now uid).
Proof.
  intros st r st' Hrun Hdb.
  rewrite load_history_disconnected in Hrun by done. by simplify_eq.
Qed.

(** *** The keys a request touches *)

Lemma touches_only_refl (uid : option string) (st : state) : touches_only uid st st.
Proof. split; [|done]. exists []. by rewrite List.app_nil_r. Qed.

Lemma touches_only_trans (uid : option string) (x y z : state) :
  touches_only uid x y → touches_only uid y z → touches_only uid x z.
Proof.
  intros [(c1 & Hl1 & Ha1) Hs1] [(c2 & Hl2 & Ha2) Hs2]. split.
  - exists (c1 ++ c2). split; [|by apply Forall_app].
    by rewrite Hl2, Hl1, (assoc_L (++)).
  - intros k Hk Hu. by rewrite Hs2, Hs1.
Qed.

Lemma same_store_touches (uid : option string) (st st' : state) :
  same_store st st' → touches_only uid st st'.
Proof.
  intros [Hc Hl]. split.
  - exists []. by rewrite List.app_nil_r.
  - intros k _ _. unfold stored. by rewrite Hc.
Qed.

Lemma log_cmd_touches (uid : option string) (c : redis_cmd) (st : state) :
  allowed_cmd uid c → touches_only uid st (log_cmd c st).
Proof. intros Hc. split; [|done]. exists [c]. split; [done|]. by apply Forall_singleton. Qed.

Lemma get_response_from_cache_touches (uid : option string) (now : Z) (p m : string)
    (L : Z) :
  keeps (touches_only uid) (get_response_from_cache now p m L).
Proof.
  intros st r st' Hrun. destruct (redis_client st) as [db|] eqn:Hdb.
  - rewrite (get_response_from_cache_connected _ _ _ _ _ db) in Hrun by done.
    simplify_eq. apply log_cmd_touches. left. apply cache_key_get_redis_key.
  - rewrite get_response_from_cache_disconnected in Hrun by done.
    simplify_eq. apply touches_only_refl.
Qed.

Lemma set_response_to_cache_touches (uid : option string) (now : Z) (p m : string)
    (L : Z) (i : string) (o : value) (h : list string) :
  keeps (touches_only uid) (set_response_to_cache now p m L (JResponse i o h)).
Proof.
  intros st r st' Hrun. destruct (redis_client st) as [db|] eqn:Hdb.
  2: { rewrite set_response_to_cache_disconnected in Hrun by done.
       simplify_eq. apply touches_only_refl. }
  rewrite (set_response_to_cache_connected _ _ _ _ _ _ db) in Hrun by done.
  cbv zeta in Hrun.
  assert (allowed_cmd uid (SETEX (get_redis_key p m L) CACHE_TTL_SECONDS (JResponse i o h)))
    as Hcmd.
  { split_and!; [apply cache_key_get_redis_key|done|by eexists _, _, _]. }
  destruct (CACHE_TTL_SECONDS <=? 0); simplify_eq; [by apply log_cmd_touches|].
  split.
  - eexists [_]. split; [done|]. by apply Forall_singleton.
  - intros k Hk _. unfold stored. cbn [redis_client set_redis log_cmd mbind option_bind].
    rewrite Hdb. cbn [mbind option_bind]. apply lookup_insert_ne.
    intros <-. by rewrite cache_key_get_redis_key in Hk.
Qed.

Lemma load_history_touches (uid : option string) (now : Z) :
  keeps (touches_only uid) (load_history now uid).
Proof.
  intros st r st' Hrun. destruct (redis_client st) as [db|] eqn:Hdb.
  2: { rewrite load_history_disconnected in Hrun by done.
       simplify_eq. apply touches_only_refl. }
  rewrite (load_history_connected _ _ _ db) in Hrun by done.
  destruct (user_given uid) eqn:Hgiven; [|simplify_eq; apply touches_only_refl].
  assert (allowed_cmd uid (GET (default EmptyString uid))) as Hcmd.
  { right. split; [done|]. by destruct uid. }
  destruct (redis_lookup now db (default EmptyString uid)) as [[?|? ? ?]|];
    simplify_eq; by apply log_cmd_touches.
Qed.

Lemma redis_set_touches (uid : option string) (st : state) (db : gmap string entry)
    (u : string) (turns : list string) :
  uid = Some u → user_given uid = true → redis_client st = Some db →
  touches_only uid st (snd (redis_set db u (JHistory (first_n 6 turns)) st)).
Proof.
  intros Hu Hgiven Hdb. unfold redis_set, modify. cbn [snd]. split.
  - eexists [_]. split; [done|]. apply Forall_singleton.
    split_and!; [done..|]. eexists. split; [done|]. apply first_n_length.
  - intros k _ Hk. unfold stored. cbn [redis_client set_redis log_cmd mbind option_bind].
    rewrite Hdb. cbn [mbind option_bind]. apply lookup_insert_ne. congruence.
Qed.

End RequestsKeep.

(** X4: the two memo stores never outgrow the sizes given to [lru_cache]:
    when the store of [generate_response_with_cache] holds at most 100
    results and that of [generate_response] at most 128 before a request,
    they do so after it, whatever the request and its answer, on both
    endpoints. *)
Theorem memo_stores_stay_bounded `{Deployment} (body : GenerateRequest)
    (batch : BatchGenerateRequest) (api_key : option string) (now : Z) :
  keeps bounded_stays (generate_text body api_key now) ∧
  keeps bounded_stays (generate_batch_text batch api_key now).
Proof.
  assert (∀ A (m : M A), keeps only_store_changed m → keeps bounded_stays m) as Hstore.
  { intros A m. apply keeps_weaken, only_store_changed_bounded. }
  split;
    [eapply (generate_text_keeps (fun _ => bounded_stays))
    |eapply (generate_batch_text_keeps (fun _ => bounded_stays))];
    try reflexivity.
  all: try (intros; by apply Hstore;
            first [apply get_response_from_cache_store
                  |apply set_response_to_cache_store
                  |apply load_history_store]).
  all: try by (intros ? ? ?; unfold bounded_stays; auto).
  all: try (intros a b x y z; apply bounded_stays_trans).
  all: try (intros p h L m st r st' Hrun;
            by apply generate_response_with_cache_step in Hrun as (_ & ? & _)).
  all: by intros st db u turns _ _ _.
Qed.

(** X5: a request to [/api/generate] calls the pipeline at most once, and a
    batch at most once for each of its prompts; where no model was loaded the
    pipeline is never called. *)
Theorem pipeline_calls_are_bounded `{Deployment} (body : GenerateRequest)
    (batch : BatchGenerateRequest) (api_key : option string) (now : Z) :
  keeps (calls_within calls_per_generation) (generate_text body api_key now) ∧
  keeps (calls_within (length (prompts batch) * calls_per_generation))
    (generate_batch_text batch api_key now).
Proof.
  assert (∀ A (m : M A), keeps only_store_changed m → keeps (calls_within 0) m) as Hstore.
  { intros A m. apply keeps_weaken, only_store_changed_calls. }
  rewrite <- (Nat.mul_1_l calls_per_generation) at 1.
  split;
    [eapply (generate_text_keeps (fun n => calls_within (n * calls_per_generation)))
    |eapply (generate_batch_text_keeps (fun n => calls_within (n * calls_per_generation)))];
    try reflexivity.
  all: try (intros; by apply Hstore;
            first [apply get_response_from_cache_store
                  |apply set_response_to_cache_store
                  |apply load_history_store]).
  all: try by (intros ? ?; unfold calls_within; lia).
  all: try (intros a b x y z; rewrite Nat.mul_add_distr_r; apply calls_within_add).
  all: try (intros p h L m st r st' Hrun; rewrite Nat.mul_1_l;
            by apply generate_response_with_cache_step in Hrun as (_ & _ & ?)).
  all: intros st db u turns _ _ _; unfold calls_within, redis_set, modify; cbn; lia.
Qed.

(** X6: a process that found no Redis at start-up stays without one: neither
    endpoint sends a command or acquires a client, whatever the request. *)
Theorem offline_requests_send_nothing `{Deployment} (body : GenerateRequest)
    (batch : BatchGenerateRequest) (api_key : option string) (now : Z) :
  keeps offline_stays (generate_text body api_key now) ∧
  keeps offline_stays (generate_batch_text batch api_key now).
Proof.
  split;
    [eapply (generate_text_keeps (fun _ => offline_stays))
    |eapply (generate_batch_text_keeps (fun _ => offline_stays))];
    try reflexivity.
  all: try (intros; first [apply get_response_from_cache_offline
                          |apply set_response_to_cache_offline
                          |apply load_history_offline]).
  all: try by (intros ? ? ?; apply same_store_refl).
  all: try (intros a b x y z; apply offline_stays_trans).
  all: try (intros p h L m st r st' Hrun _;
            by apply generate_response_with_cache_step in Hrun as (? & _)).
  all: intros st db u turns _ _ Hdb Hnone; congruence.
Qed.

(** X7: a request touches only its own keys.  The commands it sends are
    lookups of cache keys, response documents written to cache keys with the
    configured time-to-live, reads of the key named by its [user_id] and
    histories of at most six turns written to that key; whatever the store
    holds under any other key that is not a cache key is left as it was.  An
    anonymous request sends no [SET] at all. *)
Theorem requests_touch_only_their_keys `{Deployment} (body : GenerateRequest)
    (batch : BatchGenerateRequest) (api_key : option string) (now : Z) :
  keeps (touches_only (user_id body)) (generate_text body api_key now) ∧
  keeps (touches_only (batch_user_id batch)) (generate_batch_text batch api_key now).
Proof.
  split;
    [eapply (generate_text_keeps (fun _ => touches_only (user_id body)))
    |eapply (generate_batch_text_keeps (fun _ => touches_only (batch_user_id batch)))];
    try reflexivity.
  all: try (intros; first [apply get_response_from_cache_touches
                          |apply set_response_to_cache_touches
                          |apply load_history_touches]).
  all: try by (intros ? ?; apply touches_only_refl).
  all: try (intros a b x y z; apply touches_only_trans).
  all: try (intros p h L m st r st' Hrun; apply same_store_touches;
            by apply generate_response_with_cache_step in Hrun as (? & _)).
  all: intros st db u turns; apply redis_set_touches.
Qed.
(** ** The answers of the endpoints *)

Section Answers.
Context `{Deployment}.

Lemma yields_bind_with {A B} (Q1 : A → Prop) (Q : B → Prop) (m : M A) (k : A → M B) :
  yields Q1 m → (∀ a, Q1 a → yields Q (k a)) → yields Q (bind m k).
Proof.
  intros Hm Hk st b st'. unfold bind.
  destruct (m st) as [[a|e] st1] eqn:Hrun; [|done].
  apply Hk. by eapply Hm.
Qed.

(** [try: ... except Exception: return a]: the answer is one of the body or
    [a]; nothing is raised. *)
Lemma try_except_answers {A} (Q : result A → Prop) (m : M A) (a : A) (st : state) :
  yields (fun x => Q (Ok x)) m → Q (Ok a) →
  Q (fst (try_except m (fun _ => true) (ret a) st)).
Proof.
  intros Hm Ha. unfold try_except.
  destruct (m st) as [[x|e] st1] eqn:Hrun; [|done]. by eapply Hm.
Qed.

Lemma batch_outputs_length (now : Z) (ps history : list string) (L : Z) (m : string) :
  yields (fun outputs => length outputs = length ps) (batch_outputs now ps history L m).
Proof.
  induction ps as [|p ps IH]; [by apply yields_ret|].
  cbn [batch_outputs]. apply yields_bind. intros cached.
  apply yields_bind. intros output.
  apply (yields_bind_with _ _ _ _ IH). intros outputs Hlen.
  apply yields_ret. cbn [length]. by rewrite Hlen.
Qed.

End Answers.

(** X8: [/api/generate] always answers and never lets an exception escape:
    with the document of a generation, whose input is the prompt of the
    request, and status 200, or with one of its three errors (401 for the API
    key, 400 for the mode, 500 for anything raised on the way). *)
Theorem generate_text_always_answers `{Deployment} (body : GenerateRequest)
    (api_key : option string) (now : Z) (st : state) :
  single_response_shape body (fst (generate_text body api_key now st)).
Proof.
  unfold generate_text. apply try_except_answers.
  2: { cbn. rewrite !elem_of_cons. auto. }
  destruct (validate_api_key api_key);
    [|apply yields_ret; cbn; rewrite !elem_of_cons; auto].
  destruct (bool_decide (mode body ∈ VALID_MODES));
    [|apply yields_ret; cbn; rewrite !elem_of_cons; auto].
  cbn [negb]. apply yields_bind. intros cached.
  destruct (truthy cached).
  { destruct cached as [doc|]; [|apply yields_raise].
    apply yields_bind. intros output. apply yields_bind. intros history.
    by apply yields_ret. }
  apply yields_bind. intros history. apply yields_bind. intros output.
  apply yields_bind. intros client. apply yields_bind. intros new_history.
  apply yields_bind. intros _. by apply yields_ret.
Qed.

(** X9: [/api/generate_batch] always answers and never lets an exception
    escape: with the prompts of the request as inputs, one output for each
    prompt and at most six turns of history, status 200, or with one of its
    three errors. *)
Theorem generate_batch_text_always_answers `{Deployment} (body : BatchGenerateRequest)
    (api_key : option string) (now : Z) (st : state) :
  batch_response_shape body (fst (generate_batch_text body api_key now st)).
Proof.
  unfold generate_batch_text. apply try_except_answers.
  2: { cbn. rewrite !elem_of_cons. auto. }
  destruct (validate_api_key api_key);
    [|apply yields_ret; cbn; rewrite !elem_of_cons; auto].
  destruct (bool_decide (batch_mode body ∈ VALID_MODES));
    [|apply yields_ret; cbn; rewrite !elem_of_cons; auto].
  cbn [negb]. apply yields_bind. intros history.
  apply (yields_bind_with _ _ _ _ (batch_outputs_length _ _ _ _ _)). intros outputs Hlen.
  apply yields_bind. intros client. apply yields_bind. intros _.
  apply yields_ret. split_and!; [done..|apply first_n_length|done].
Qed.

(** X10: without the configured API key in the [X-API-Key] header (a
    missing header included) both endpoints answer 401 before anything else
    happens: the state is the one before the request, so that no command was
    sent to the store and the pipeline was not called. *)
Theorem wrong_api_key_is_rejected `{Deployment} (body : GenerateRequest)
    (batch : BatchGenerateRequest) (api_key : option string) (now : Z) (st : state) :
  api_key ≠ Some API_KEY →
  generate_text body api_key now st = (Ok (Error INVALID_API_KEY, 401%nat), st) ∧
  generate_batch_text batch api_key now st = (Ok (Error INVALID_API_KEY, 401%nat), st).
Proof.
  intros Hkey. unfold generate_text, generate_batch_text, try_except, validate_api_key.
  by rewrite bool_decide_eq_false_2.
Qed.

Lemma wrong_api_key_is_rejected_witness :
  let D := echo_deployment in
  let body := mkGenerateRequest "hi" (Some "u1") 100 "general" in
  let batch := mkBatchGenerateRequest ["a"; "b"] None 100 "nonsense" in
  let st := fresh (Some ∅) 0%nat in
  generate_text body None 0 st = (Ok (Error INVALID_API_KEY, 401%nat), st) ∧
  generate_batch_text batch None 0 st = (Ok (Error INVALID_API_KEY, 401%nat), st).
Proof.
  intros D body batch st.
  apply (wrong_api_key_is_rejected (H := D) body batch None 0 st). done.
Defined.
(** ** The memo stores and the shared cache *)

Section Caches.
Context `{Deployment}.

Lemma user_given_cache_key (p m : string) (L : Z) :
  user_given (Some (get_redis_key p m L)) = true.
Proof. done. Qed.

Lemma redis_lookup_insert_live (now : Z) (db : gmap string entry) (k : string)
    (e : entry) :
  redis_lookup now (<[k := e]> db) k = if live now e then Some (entry_value e) else None.
Proof. unfold redis_lookup. by rewrite lookup_insert_eq. Qed.

Lemma generate_response_inner_hit (p : prompt_arg) (h : list string) (L : Z)
    (m : string) (v : value) (st : state) :
  hashable p = true →
  lru_find (p, h, L, m) (inner_lru st) = Some v →
  generate_response p h L m st =
    (Ok v, set_inner_lru (lru_touch (p, h, L, m) v (inner_lru st)) st).
Proof.
  intros Hp Hfind. unfold generate_response, lru_cache. rewrite Hp. cbn [negb].
  unfold bind at 1, gets. by rewrite Hfind.
Qed.

End Caches.

(** X11: a generation is not made twice.  For a prompt that can be hashed,
    [generate_response_with_cache] returns, and the same call made again
    returns the same value from the memo store: the pipeline is not called
    and its state does not move, even where it would answer differently. *)
Theorem memoized_generation_is_not_repeated `{Deployment} (p : prompt_arg)
    (h : list string) (L : Z) (m : string) (st : state) :
  hashable p = true →
  ∃ v st1 st2,
    generate_response_with_cache p h L m st = (Ok v, st1) ∧
    generate_response_with_cache p h L m st1 = (Ok v, st2) ∧
    backend_calls st2 = backend_calls st1 ∧ backend st2 = backend st1 ∧
    inner_lru st2 = inner_lru st1.
Proof.
  intros Hp.
  destruct (generate_response_with_cache_ok p h L m st Hp) as (v & st1 & Hgen & _ & _ & Hfind).
  exists v, st1. eexists. split; [done|].
  by rewrite (generate_response_with_cache_hit p h L m v st1 Hp Hfind).
Qed.

(** X12: the store of [generate_response] stands behind that of
    [generate_response_with_cache]: a result that the outer store of 100 no
    longer holds but the inner store of 128 still does is returned without a
    call of the pipeline, and is back in the outer store afterwards. *)
Theorem inner_store_answers_outer_miss `{Deployment} (p : prompt_arg) (h : list string)
    (L : Z) (m : string) (v : value) (st : state) :
  hashable p = true →
  lru_find (p, h, L, m) (outer_lru st) = None →
  lru_find (p, h, L, m) (inner_lru st) = Some v →
  ∃ st',
    generate_response_with_cache p h L m st = (Ok v, st') ∧
    backend_calls st' = backend_calls st ∧ backend st' = backend st ∧
    lru_find (p, h, L, m) (outer_lru st') = Some v.
Proof.
  intros Hp Hout Hin. unfold generate_response_with_cache, lru_cache.
  rewrite Hp. cbn [negb]. unfold bind at 1, gets. rewrite Hout.
  unfold bind at 1. rewrite (generate_response_inner_hit p h L m v st Hp Hin).
  unfold bind at 1. cbn [gets outer_lru set_inner_lru]. rewrite Hout.
  eexists. split; [done|]. split_and!; [done..|]. apply lru_find_insert.
Qed.

(** X13: the two cache functions agree on the key and on the time-to-live.
    On a connected store with a positive [CACHE_TTL_SECONDS], the document
    that [set_response_to_cache] wrote at the time [now] is what
    [get_response_from_cache] returns for the same prompt, mode and
    [max_length] at any time up to [now + CACHE_TTL_SECONDS], the instant of
    expiry included, and it returns nothing once that instant has passed. *)
Theorem cached_response_expires `{Deployment} (now now2 : Z) (p m : string) (L : Z)
    (doc : json_value) (st : state) (db : gmap string entry) :
  redis_client st = Some db →
  0 < CACHE_TTL_SECONDS →
  ∃ st1,
    set_response_to_cache now p m L doc st = (Ok tt, st1) ∧
    fst (get_response_from_cache now2 p m L st1) =
      Ok (if now2 <=? now + CACHE_TTL_SECONDS then Some doc else None).
Proof.
  intros Hdb Httl.
  rewrite (set_response_to_cache_connected _ _ _ _ _ _ db) by done. cbv zeta.
  rewrite (proj2 (Z.leb_gt _ _)) by done. eexists. split; [done|].
  erewrite get_response_from_cache_connected by done.
  cbn [fst]. by rewrite redis_lookup_insert_live.
Qed.

(** X14: user identifiers and cache keys live in one key space.  When the
    [user_id] of a request is the cache key of another request, the history
    written for the first is found by the lookup of the second, which then
    fails with status 500, at any later time: the history has no expiry. *)
Theorem user_id_can_shadow_a_cache_key `{Deployment} (body1 body2 : GenerateRequest)
    (api_key : option string) (now1 now2 : Z) (st : state) (db : gmap string entry) :
  let key1 := get_redis_key (prompt body1) (mode body1) (max_length body1) in
  let key2 := get_redis_key (prompt body2) (mode body2) (max_length body2) in
  validate_api_key api_key = true →
  mode body1 ∈ VALID_MODES → mode body2 ∈ VALID_MODES →
  redis_client st = Some db →
  user_id body1 = Some key2 →
  key1 ≠ key2 →
  truthy (redis_lookup now1 db key1) = false →
  redis_lookup now1 db key2 = None →
  ∃ r1 st1 st2,
    generate_text body1 api_key now1 st = (r1, st1) ∧
    generate_text body2 api_key now2 st1 = (Ok (Error INTERNAL_ERROR, 500%nat), st2).
Proof.
  intros key1 key2 Hkey Hm1 Hm2 Hdb Huid Hne Hmiss Hnone. subst key1 key2.
  pose proof (generate_text_miss body1 api_key now1 Hkey Hm1 st db Hdb Hmiss) as Hfirst.
  cbv zeta in Hfirst. rewrite Huid in Hfirst. cbn [default id] in Hfirst.
  rewrite user_given_cache_key, Hnone in Hfirst.
  destruct Hfirst as (v & st1 & Hrun & Hdb1).
  eexists _, st1, _. split; [done|].
  eapply (generate_text_not_an_entry body2 api_key now2 Hkey Hm2 st1); [done|].
  destruct (CACHE_TTL_SECONDS <=? 0).
  - by rewrite redis_lookup_insert_live.
  - by rewrite redis_lookup_insert_ne, redis_lookup_insert_live.
Qed.

(** X15: the shared cache is keyed by prompt, mode and [max_length] only, and
    an entry carries the history of the request that wrote it.  After a
    request of a user was generated and stored, a request with the same
    prompt, mode and [max_length] made before the entry expires is answered
    with the same output and with the history of the first user, turns
    of earlier requests included, whoever asks. *)
Theorem cache_hit_serves_the_writers_history `{Deployment} (body1 body2 : GenerateRequest)
    (api_key : option string) (now1 now2 : Z) (st : state) (db : gmap string entry)
    (u : string) (old : option (list string)) :
  let key := get_redis_key (prompt body1) (mode body1) (max_length body1) in
  validate_api_key api_key = true →
  mode body1 ∈ VALID_MODES →
  prompt body2 = prompt body1 → mode body2 = mode body1 →
  max_length body2 = max_length body1 →
  redis_client st = Some db →
  truthy (redis_lookup now1 db key) = false →
  user_id body1 = Some u → user_given (Some u) = true →
  redis_lookup now1 db u = JHistory <$> old →
  0 < CACHE_TTL_SECONDS → now2 < now1 + CACHE_TTL_SECONDS →
  ∃ v st1 st2,
    let history := last_n 6 (default [] old) ++ [User (prompt body1); AI v] in
    generate_text body1 api_key now1 st =
      (Ok (Generated (prompt body1) v history, 200%nat), st1) ∧
    generate_text body2 api_key now2 st1 =
      (Ok (Generated (prompt body1) v history, 200%nat), st2).
Proof.
  intros key Hkey Hm Hp2 Hm2 HL2 Hdb Hmiss Huid Hgiven Hold Httl Hnow.
  pose proof (generate_text_miss body1 api_key now1 Hkey Hm st db Hdb Hmiss) as Hfirst.
  cbv zeta in Hfirst. rewrite Huid in Hfirst. cbn [default id] in Hfirst.
  rewrite Hgiven, Hold in Hfirst. rewrite (proj2 (Z.leb_gt _ _)) in Hfirst by done.
  assert (mode body2 ∈ VALID_MODES) as Hmode2 by by rewrite Hm2.
  destruct old as [turns|]; cbn [fmap option_fmap option_map] in Hfirst;
    destruct Hfirst as (v & st1 & Hrun & Hdb1); cbn [turns_of] in Hrun, Hdb1;
    exists v, st1; eexists; cbv zeta; cbn [default]; (split; [exact Hrun|]).
  all: match type of Hrun with
       | _ = (Ok (Generated _ _ ?hist, _), _) =>
           rewrite (generate_text_hit body2 api_key now2 Hkey Hmode2 st1 _
                      (prompt body1) v hist Hdb1)
       end; [by rewrite Hp2|].
  all: rewrite Hp2, Hm2, HL2, redis_lookup_insert_live;
    cbn [live entry_expires entry_value]; by rewrite (proj2 (Z.leb_le _ _)) by lia.
Qed.
(** ** The generated texts *)

Lemma prefix_app (a b : string) : String.prefix a (a +:+ b) = true.
Proof.
  induction a as [|x a IH]; [apply prefix_nil|].
  by rewrite app_cons, prefix_cons, bool_decide_eq_true_2.
Qed.

Lemma drop_app (a b : string) : PyStr.drop (String.length a) (a +:+ b) = b.
Proof. induction a as [|x a IH]; [by destruct b|]. by rewrite app_cons. Qed.

(** X16: the loop that cleans the generated texts gives one output for each
    text, and fails (with the [IndexError] of [full_prompts[i]]) exactly when
    the pipeline answered with more texts than it was given prompts. *)
Theorem clean_outputs_one_per_text (full_prompts generated : list string) :
  match clean_outputs full_prompts generated with
  | Some outputs =>
      length outputs = length generated ∧ (length generated ≤ length full_prompts)%nat
  | None => (length full_prompts < length generated)%nat
  end.
Proof.
  revert full_prompts. induction generated as [|g gs IH]; intros [|fp fps];
    cbn [clean_outputs length]; try lia.
  specialize (IH fps). destruct (clean_outputs fps gs);
    cbn [fmap option_fmap option_map length]; lia.
Qed.

(** X17: a text that continues its prompt is answered without the prompt:
    when each generated text is its full prompt followed by a continuation,
    the outputs are the continuations with the white space around them
    stripped. *)
Theorem prompt_echo_is_cut_off (full_prompts continuations : list string) :
  (length continuations ≤ length full_prompts)%nat →
  clean_outputs full_prompts (zip_with String.append full_prompts continuations) =
    Some (PyStr.strip <$> continuations).
Proof.
  revert full_prompts. induction continuations as [|c cs IH]; intros [|fp fps] Hlen;
    cbn [length] in Hlen; try done; try lia.
  cbn [zip_with clean_outputs fmap list_fmap].
  rewrite prefix_app, drop_app, IH by lia. done.
Qed.

Lemma prompt_echo_is_cut_off_witness :
  clean_outputs ["A: "; "B: "] (zip_with String.append ["A: "; "B: "] [" yes "; "no"]) =
    Some (PyStr.strip <$> [" yes "; "no"]).
Proof. apply (prompt_echo_is_cut_off ["A: "; "B: "] [" yes "; "no"]). simpl. lia. Defined.

Section Body.
Context `{Deployment}.

Lemma same_kind_per_prompt (msg : string) (p : prompt_arg) : same_kind p (per_prompt msg p).
Proof. unfold per_prompt, same_kind. by destruct (is_str p) eqn:Hp. Qed.

End Body.

(** X18: the body of [generate_response] never raises, whatever the pipeline
    does, and answers in kind: a string for a string prompt, a list for a
    sequence of prompts. *)
Theorem generation_answers_in_kind `{Deployment} (p : prompt_arg) (h : list string)
    (L : Z) (m : string) (st : state) :
  ∃ v st', generate_response_wrapped p h L m st = (Ok v, st') ∧ same_kind p v.
Proof.
  unfold generate_response_wrapped.
  destruct generator as [g|]; [|eexists _, _; split; [done|apply same_kind_per_prompt]].
  unfold try_except, bind at 1.
  destruct (mapM_of_option KeyError (full_prompt m (PyStr.join " " h)) (prompt_items p) st)
    as [[fps|e] ->]; [|eexists _, _; split; [done|apply same_kind_per_prompt]].
  unfold bind at 1, call_generator.
  destruct (g (backend st) fps L) as [[texts|] b];
    [|eexists _, _; split; [done|apply same_kind_per_prompt]].
  unfold bind at 1. destruct (clean_outputs fps texts) as [outs|];
    [|eexists _, _; split; [done|apply same_kind_per_prompt]].
  cbn [of_option ret]. destruct (is_str p) eqn:Hp; [|by eexists _, _].
  unfold bind, of_option. destruct (head outs);
    eexists _, _; (split; [done|]); [done|apply same_kind_per_prompt].
Qed.

(** ** The history of a user *)

(** X19: the history read for a request has at most six turns, whatever the
    store holds under the key of the user. *)
Theorem load_history_at_most_six `{Deployment} (now : Z) (uid : option string) :
  yields (fun history => (length history ≤ 6)%nat) (load_history now uid).
Proof.
  intros st history st' Hrun. destruct (redis_client st) as [db|] eqn:Hdb.
  2: { rewrite load_history_disconnected in Hrun by done. simplify_eq. cbn. lia. }
  rewrite (load_history_connected _ _ _ db) in Hrun by done.
  destruct (user_given uid); [|simplify_eq; cbn; lia].
  destruct (redis_lookup now db (default EmptyString uid)) as [[?|? ? ?]|];
    simplify_eq; apply last_n_length.
Qed.

Section Offline.
Context `{Deployment}.

Lemma bind_ok {A B} (m : M A) (k : A → M B) (st st' : state) (a : A) :
  m st = (Ok a, st') → bind m k st = k a st'.
Proof. intros Hm. unfold bind. by rewrite Hm. Qed.

Lemma bind_run {A B} (m : M A) (k k' : A → M B) (st : state) :
  (∀ a st', m st = (Ok a, st') → k a st' = k' a st') → bind m k st = bind m k' st.
Proof. intros Hk. unfold bind. destruct (m st) as [[a|e] st']; [by apply Hk|done]. Qed.

Lemma batch_outputs_offline (now : Z) (ps history : list string) (L : Z) (m : string) :
  keeps offline_stays (batch_outputs now ps history L m).
Proof.
  eapply (batch_outputs_keeps (fun _ => offline_stays)).
  all: try (intros; first [apply get_response_from_cache_offline
                          |apply set_response_to_cache_offline]).
  all: try by (intros ? ? ?; apply same_store_refl).
  all: try (intros a b x y z; apply offline_stays_trans).
  all: intros p h L' m' st r st' Hrun _;
    by apply generate_response_with_cache_step in Hrun as (? & _).
Qed.

End Offline.

(** X20: without Redis there is no conversation: on both endpoints a request
    is answered, and leaves the process, exactly as the same request without
    [user_id]. *)
Theorem offline_requests_ignore_user_id `{Deployment} (body : GenerateRequest)
    (batch : BatchGenerateRequest) (api_key : option string) (now : Z) (st : state) :
  redis_client st = None →
  generate_text body api_key now st = generate_text (anonymous body) api_key now st ∧
  generate_batch_text batch api_key now st =
    generate_batch_text (anonymous_batch batch) api_key now st.
Proof.
  intros Hdb. split.
  - unfold generate_text, try_except, anonymous.
    cbn [prompt user_id max_length mode].
    destruct (validate_api_key api_key); [|done].
    destruct (bool_decide (mode body ∈ VALID_MODES)); [|done]. cbn [negb].
    rewrite !(bind_ok _ _ _ _ _ (get_response_from_cache_disconnected now (prompt body)
                (mode body) (max_length body) st Hdb)).
    cbn [truthy].
    rewrite (bind_ok _ _ _ _ _ (load_history_disconnected now (user_id body) st Hdb)).
    rewrite (bind_ok _ _ _ _ _ (load_history_disconnected now None st Hdb)).
    erewrite bind_run; [done|]. intros output st1 Hgen.
    apply generate_response_with_cache_step in Hgen as ([Hc _] & _).
    rewrite Hdb in Hc. unfold bind at 1 3, gets. rewrite Hc.
    by destruct (user_id body).
  - unfold generate_batch_text, try_except, anonymous_batch.
    cbn [prompts batch_user_id batch_max_length batch_mode].
    destruct (validate_api_key api_key); [|done].
    destruct (bool_decide (batch_mode batch ∈ VALID_MODES)); [|done]. cbn [negb].
    rewrite (bind_ok _ _ _ _ _ (load_history_disconnected now (batch_user_id batch) st Hdb)).
    rewrite (bind_ok _ _ _ _ _ (load_history_disconnected now None st Hdb)).
    erewrite bind_run; [done|]. intros outputs st1 Hrun.
    apply batch_outputs_offline in Hrun. destruct (Hrun Hdb) as [Hc _].
    rewrite Hdb in Hc. unfold bind at 1 3, gets. rewrite Hc.
    by destruct (batch_user_id batch).
Qed.
(** ** The further properties at work *)

Section FurtherRuns.
#[local] Existing Instance echo_deployment.

Lemma memo_stores_stay_bounded_witness :
  let body := mkGenerateRequest "hi" (Some "u1") 100 "general" in
  let batch := mkBatchGenerateRequest ["a"; "b"] (Some "u1") 100 "support" in
  let st := fresh (Some ∅) 0%nat in
  lru_bounded (snd (generate_text body test_key 0 st)) ∧
  lru_bounded (snd (generate_batch_text batch test_key 0 st)).
Proof.
  intros body batch st.
  pose proof (memo_stores_stay_bounded (H := echo_deployment) body batch test_key 0)
    as [Hsingle Hbatch].
  split.
  - apply (Hsingle st _ _ (surjective_pairing _)). vm_compute. lia.
  - apply (Hbatch st _ _ (surjective_pairing _)). vm_compute. lia.
Defined.

Lemma pipeline_calls_are_bounded_witness :
  let body := mkGenerateRequest "hi" (Some "u1") 100 "general" in
  let batch := mkBatchGenerateRequest ["a"; "b"] (Some "u1") 100 "support" in
  let st := fresh (Some ∅) 0%nat in
  calls_within calls_per_generation st (snd (generate_text body test_key 0 st)) ∧
  calls_within (length (prompts batch) * calls_per_generation) st
    (snd (generate_batch_text batch test_key 0 st)).
Proof.
  intros body batch st.
  pose proof (pipeline_calls_are_bounded (H := echo_deployment) body batch test_key 0)
    as [Hsingle Hbatch].
  split.
  - apply (Hsingle st _ _ (surjective_pairing _)).
  - apply (Hbatch st _ _ (surjective_pairing _)).
Defined.

Lemma offline_requests_send_nothing_witness :
  let body := mkGenerateRequest "hi" (Some "u1") 100 "general" in
  let batch := mkBatchGenerateRequest ["a"; "b"] (Some "u1") 100 "support" in
  let st := fresh None 0%nat in
  same_store st (snd (generate_text body test_key 0 st)) ∧
  same_store st (snd (generate_batch_text batch test_key 0 st)).
Proof.
  intros body batch st.
  pose proof (offline_requests_send_nothing (H := echo_deployment) body batch test_key 0)
    as [Hsingle Hbatch].
  split.
  - apply (Hsingle st _ _ (surjective_pairing _)). reflexivity.
  - apply (Hbatch st _ _ (surjective_pairing _)). reflexivity.
Defined.

Lemma requests_touch_only_their_keys_witness :
  let body := mkGenerateRequest "hi" (Some "u1") 100 "general" in
  let batch := mkBatchGenerateRequest ["a"; "b"] None 100 "support" in
  let st := fresh (Some {[ "u2" := mkEntry (JHistory six_turns) None ]}) 0%nat in
  touches_only (Some "u1") st (snd (generate_text body test_key 0 st)) ∧
  touches_only None st (snd (generate_batch_text batch test_key 0 st)).
Proof.
  intros body batch st.
  pose proof (requests_touch_only_their_keys (H := echo_deployment) body batch test_key 0)
    as [Hsingle Hbatch].
  split.
  - apply (Hsingle st _ _ (surjective_pairing _)).
  - apply (Hbatch st _ _ (surjective_pairing _)).
Defined.

Lemma load_history_at_most_six_witness :
  let turns := ["1"; "2"; "3"; "4"; "5"; "6"; "7"; "8"] in
  let st := fresh (Some {[ "u1" := mkEntry (JHistory turns) None ]}) 0%nat in
  fst (load_history 0 (Some "u1") st) = Ok (last_n 6 turns) ∧
  (length (last_n 6 turns) ≤ 6)%nat.
Proof.
  intros turns st. split; [vm_compute; reflexivity|].
  apply (load_history_at_most_six (H := echo_deployment) 0 (Some "u1") st
           (last_n 6 turns) (snd (load_history 0 (Some "u1") st))).
  vm_compute. reflexivity.
Defined.

Lemma memoized_generation_is_not_repeated_witness :
  ∃ v st1 st2,
    generate_response_with_cache (PStr "hi") [] 100 "general" (fresh None 0%nat) =
      (Ok v, st1) ∧
    generate_response_with_cache (PStr "hi") [] 100 "general" st1 = (Ok v, st2) ∧
    backend_calls st2 = backend_calls st1 ∧ backend st2 = backend st1 ∧
    inner_lru st2 = inner_lru st1.
Proof.
  apply (memoized_generation_is_not_repeated (PStr "hi") [] 100 "general"
           (fresh (D := echo_deployment) None 0%nat)).
  reflexivity.
Defined.

Lemma inner_store_answers_outer_miss_witness :
  let k : memo_key := (PStr "hi", [], 100, "general") in
  let st := mkState None [] [] [(k, VStr "kept")] 7%nat 7%nat in
  ∃ st',
    generate_response_with_cache (PStr "hi") [] 100 "general" st = (Ok (VStr "kept"), st') ∧
    backend_calls st' = backend_calls st ∧ backend st' = backend st ∧
    lru_find k (outer_lru st') = Some (VStr "kept").
Proof.
  intros k st.
  apply (inner_store_answers_outer_miss (PStr "hi") [] 100 "general" (VStr "kept") st).
  - reflexivity.
  - reflexivity.
  - vm_compute. reflexivity.
Defined.

Lemma cached_response_expires_witness :
  let doc := JResponse "hi" (VStr "there") [] in
  ∃ st1,
    set_response_to_cache 0 "hi" "general" 100 doc (fresh (Some ∅) 0%nat) = (Ok tt, st1) ∧
    fst (get_response_from_cache 600 "hi" "general" 100 st1) =
      Ok (if 600 <=? 0 + CACHE_TTL_SECONDS then Some doc else None).
Proof.
  intros doc.
  apply (cached_response_expires 0 600 "hi" "general" 100 doc (fresh (D := echo_deployment) (Some ∅) 0%nat) ∅).
  - reflexivity.
  - reflexivity.
Defined.

(** With a time-to-live of 600 seconds the entry written at the time 0 is
    found at the time 600 and no longer at the time 601. *)
Example cached_response_at_the_boundary :
  let doc := JResponse "hi" (VStr "there") [] in
  let st1 := snd (set_response_to_cache 0 "hi" "general" 100 doc (fresh (Some ∅) 0%nat)) in
  fst (get_response_from_cache 600 "hi" "general" 100 st1) = Ok (Some doc) ∧
  fst (get_response_from_cache 601 "hi" "general" 100 st1) = Ok None.
Proof. vm_compute. done. Qed.

Lemma user_id_can_shadow_a_cache_key_witness :
  let body1 := mkGenerateRequest "hi" (Some "cache:Test:general:100") 100 "general" in
  let body2 := mkGenerateRequest "Test" None 100 "general" in
  ∃ r1 st1 st2,
    generate_text body1 test_key 0 (fresh (Some ∅) 0%nat) = (r1, st1) ∧
    generate_text body2 test_key 1000000 st1 = (Ok (Error INTERNAL_ERROR, 500%nat), st2).
Proof.
  intros body1 body2.
  apply (user_id_can_shadow_a_cache_key body1 body2 test_key 0 1000000
           (fresh (D := echo_deployment) (Some ∅) 0%nat) ∅).
  - reflexivity.
  - compute_done.
  - compute_done.
  - reflexivity.
  - vm_compute. reflexivity.
  - compute_done.
  - vm_compute. reflexivity.
  - vm_compute. reflexivity.
Defined.

Lemma cache_hit_serves_the_writers_history_witness :
  let body1 := mkGenerateRequest "hi" (Some "u1") 100 "general" in
  let body2 := mkGenerateRequest "hi" (Some "u2") 100 "general" in
  let db : gmap string entry := {[ "u1" := mkEntry (JHistory ["User: secret"; "AI: ok"]) None ]} in
  ∃ v st1 st2,
    let history := last_n 6 (default [] (Some ["User: secret"; "AI: ok"])) ++
                   [User (prompt body1); AI v] in
    generate_text body1 test_key 0 (fresh (Some db) 0%nat) =
      (Ok (Generated (prompt body1) v history, 200%nat), st1) ∧
    generate_text body2 test_key 599 st1 =
      (Ok (Generated (prompt body1) v history, 200%nat), st2).
Proof.
  intros body1 body2 db.
  apply (cache_hit_serves_the_writers_history body1 body2 test_key 0 599
           (fresh (D := echo_deployment) (Some db) 0%nat) db "u1" (Some ["User: secret"; "AI: ok"])).
  - reflexivity.
  - compute_done.
  - reflexivity.
  - reflexivity.
  - reflexivity.
  - reflexivity.
  - vm_compute. reflexivity.
  - reflexivity.
  - reflexivity.
  - vm_compute. reflexivity.
  - reflexivity.
  - reflexivity.
Defined.

Lemma offline_requests_ignore_user_id_witness :
  let body := mkGenerateRequest "hi" (Some "u1") 100 "general" in
  let batch := mkBatchGenerateRequest ["a"; "b"] (Some "u1") 100 "support" in
  let st := fresh None 0%nat in
  generate_text body test_key 0 st = generate_text (anonymous body) test_key 0 st ∧
  generate_batch_text batch test_key 0 st =
    generate_batch_text (anonymous_batch batch) test_key 0 st.
Proof.
  intros body batch st.
  apply (offline_requests_ignore_user_id body batch test_key 0 st). reflexivity.
Defined.

(** The shadowed key at work: the first request answers 200, and from then
    on the prompt [Test] cannot be served. *)
Example shadowed_cache_key :
  let body1 := mkGenerateRequest "hi" (Some "cache:Test:general:100") 100 "general" in
  let body2 := mkGenerateRequest "Test" None 100 "general" in
  let first := generate_text body1 test_key 0 (fresh (D := echo_deployment) (Some ∅) 0%nat) in
  (∃ v h, fst first = Ok (Generated "hi" v h, 200%nat)) ∧
  fst (generate_text body2 test_key 1 (snd first)) = Ok (Error INTERNAL_ERROR, 500%nat).
Proof. vm_compute. split; [by eexists _, _|done]. Qed.

End FurtherRuns.
